(** * montunual: perceived temperature and coat decision

    A shallow embedding of the two versions of the page component of the
    repository,

      - [src/unnamed/part_000]  (module [Part000]): the additive
        wind / humidity / time-of-day adjustment, and
      - [src/app/page.tsx]      (module [Page]): the wind-chill / heat-index
        formula,

    together with the closure [shouldTakeCoat], which is the same in both.

    JavaScript's [number] type is kept abstract behind the interface
    [JSNumber]; it is instantiated twice: by IEEE 754 binary64 (Rocq's
    primitive floats, which is what a JavaScript engine computes with) and
    by the exact rationals [Qc] (the arithmetic the specification reasons
    in).  What only depends on the shape of the code is proved for every
    instance; closed examples are evaluated in both; order arguments about
    the code are carried out in binary64, on the rounding that Rocq's
    [SpecFloat] specifies for its primitive floats. *)

From Stdlib Require Import ZArith QArith Qcanon Qround Floats.
From Stdlib Require Import List String Bool Lia.
Import ListNotations.

Set Warnings "-inexact-float".

(* ================================================================== *)
(** ** The [number] interface *)
(* ================================================================== *)

(** The operations the two source files apply to numbers.  A numeric literal
    of the source text is given by the decimal fraction it is written as.
    [leb] is JavaScript's [<=]: the source only uses [<] and [>], statements
    about ranges use [<=], and the one law relates the two. *)
Class JSNumber (num : Type) : Type := {
  lit : Q -> num;
  add : num -> num -> num;
  sub : num -> num -> num;
  mul : num -> num -> num;
  div : num -> num -> num;
  ltb : num -> num -> bool;
  leb : num -> num -> bool;
  Math_round : num -> num;
  leb_not_gt : forall a b : num, leb a b = true -> ltb b a = false
}.

Arguments lit {num _} _%_Q.

(** [a > b] is evaluated as [b < a]. *)
Definition gtb {num} `{JSNumber num} (a b : num) : bool := ltb b a.

Declare Scope js_scope.
Delimit Scope js_scope with js.
Infix "+" := add : js_scope.
Infix "-" := sub : js_scope.
Infix "*" := mul : js_scope.
Infix "/" := div : js_scope.
Infix "<?" := ltb : js_scope.
Infix ">?" := gtb (at level 70, no associativity) : js_scope.
Infix "<=?" := leb : js_scope.

(** [x ?? d]: the nullish-coalescing operator, with [None] for [null] and
    [undefined]. *)
Definition nullish {A : Type} (x : option A) (d : A) : A :=
  match x with
  | Some v => v
  | None => d
  end.

Infix "??" := nullish (at level 45, left associativity).

(* ------------------------------------------------------------------ *)
(** *** Exact rationals *)

Module Exact.

Definition ltb (a b : Qc) : bool :=
  match (a ?= b)%Qc with Lt => true | _ => false end.

Definition leb (a b : Qc) : bool :=
  match (a ?= b)%Qc with Gt => false | _ => true end.

(** [Math.round]: the nearest integer, a tie going to the larger one. *)
Definition round_Z (x : Qc) : Z := Qfloor (x + Q2Qc (1 # 2))%Qc.

Definition Math_round (x : Qc) : Qc := Q2Qc (inject_Z (round_Z x)).

Lemma Qc_leb_not_gt (a b : Qc) : leb a b = true -> ltb b a = false.
Proof.
unfold leb, ltb, Qccompare. rewrite <- (Qcompare_antisym a b).
destruct (a ?= b)%Q; simpl; congruence.
Qed.

#[global] Instance number : JSNumber Qc :=
  Build_JSNumber Qc Q2Qc Qcplus Qcminus Qcmult Qcdiv ltb leb Math_round
                 Qc_leb_not_gt.

End Exact.

(* ------------------------------------------------------------------ *)
(** *** IEEE 754 binary64 *)

Module Binary64.

(** An integer of magnitude below 2^63 as a float (exact below 2^53). *)
Definition of_Z (z : Z) : float :=
  match z with
  | Z0 => 0%float
  | Zpos _ => PrimFloat.of_uint63 (Uint63.of_Z z)
  | Zneg p => (- PrimFloat.of_uint63 (Uint63.of_Z (Zpos p)))%float
  end.

(** A decimal literal denotes the double nearest to its value; dividing
    its numerator by its denominator, both exact, rounds the same way. *)
Definition lit (q : Q) : float :=
  (of_Z (Qnum q) / of_Z (Zpos (Qden q)))%float.

(** [Math.round] (ECMA-262, 21.3.2.28): zeros, infinities and NaN are
    returned unchanged, a finite value with a non-negative exponent is an
    integer already, and otherwise the result is floor(x + 1/2) computed
    exactly on [m / 2^(-e)], with -0 for [-0.5 <= x < 0]. *)
Definition Math_round (x : float) : float :=
  match Prim2SF x with
  | S754_finite s m e =>
      if (0 <=? e)%Z then x
      else
        let d := (2 ^ (- e))%Z in
        let n := if s then Zneg m else Zpos m in
        let r := ((2 * n + d) / (2 * d))%Z in
        if (r =? 0)%Z then (if s then (-0)%float else 0%float)
        else of_Z r
  | _ => x
  end.

Lemma SFleb_not_gt (x y : spec_float) :
  SFleb x y = true -> SFltb y x = false.
Proof.
unfold SFleb, SFltb.
destruct x as [sx | sx | | sx mx ex], y as [sy | sy | | sy my ey];
  simpl; try congruence;
  try (destruct sx; simpl; congruence);
  try (destruct sy; simpl; congruence);
  try (destruct sx, sy; simpl; congruence).
destruct sx, sy; simpl; try congruence;
  rewrite (Z.compare_antisym ex ey);
  destruct (ex ?= ey)%Z; simpl; try congruence;
  change (Pos.compare_cont Eq my mx) with (Pos.compare my mx);
  change (Pos.compare_cont Eq mx my) with (Pos.compare mx my);
  rewrite (Pos.compare_antisym mx my);
  destruct (Pos.compare mx my); simpl; congruence.
Qed.

Lemma float_leb_not_gt (a b : float) :
  PrimFloat.leb a b = true -> PrimFloat.ltb b a = false.
Proof.
rewrite leb_spec, ltb_spec. apply SFleb_not_gt.
Qed.

#[global] Instance number : JSNumber float :=
  Build_JSNumber float lit PrimFloat.add PrimFloat.sub PrimFloat.mul
                 PrimFloat.div PrimFloat.ltb PrimFloat.leb Math_round
                 float_leb_not_gt.

End Binary64.

(* ================================================================== *)
(** ** Exceptions *)
(* ================================================================== *)

(** A computation either returns a value or throws an [Error] with a
    message. *)
Inductive outcome (A : Type) : Type :=
| Returned (value : A)
| Thrown (message : string).

Arguments Returned {A} value.
Arguments Thrown {A} message.

Definition throw {A : Type} (message : string) : outcome A := Thrown message.

(** [try { body } catch (error) { handler }] *)
Definition try_catch {A : Type} (body : outcome A)
    (handler : string -> outcome A) : outcome A :=
  match body with
  | Returned v => Returned v
  | Thrown error => handler error
  end.

(** [const x = await e; k] for a promise [e] that may reject. *)
Definition await {A B : Type} (e : outcome A) (k : A -> outcome B)
    : outcome B :=
  match e with
  | Returned v => k v
  | Thrown error => Thrown error
  end.

(* ================================================================== *)
(** ** Declarations shared by the two files *)
(* ================================================================== *)

Local Open Scope string_scope.
Local Open Scope Z_scope.
Local Open Scope js_scope.

(** [new Date().getHours()] is an integer; so are the two hour constants it
    is compared with. *)
Definition MORNING_HOUR : Z := 6.
Definition EVENING_HOUR : Z := 18.

Section Shared.

Context {num : Type} `{JSNumber num}.

Definition HIGH_WIND_THRESHOLD : num := lit 20.
Definition HIGH_HUMIDITY_THRESHOLD : num := lit 70.

Record WeatherData : Type := {
  temperature : num;
  isRainy : bool;
  windSpeed : num;
  humidity : num;
  hour : Z;
  perceivedTemp : num
}.

(** The object [conditions] built inside [shouldTakeCoat]. *)
Record Conditions : Type := {
  isCold : bool;
  conditions_isRainy : bool;
  isWindy : bool;
  isNightTime : bool
}.

(** [shouldTakeCoat] closes over the component state [weather], which is
    [null] until a forecast has arrived. *)
Definition shouldTakeCoat (weather : option WeatherData) : bool :=
  match weather with
  | None => false
  | Some weather =>
      let conditions := {|
        isCold := perceivedTemp weather <? lit 15;
        conditions_isRainy := isRainy weather;
        isWindy := windSpeed weather >? HIGH_WIND_THRESHOLD;
        isNightTime := (hour weather <? MORNING_HOUR)%Z
                       || (hour weather >? EVENING_HOUR)%Z
      |} in
      isCold conditions || conditions_isRainy conditions
      || (isWindy conditions && (perceivedTemp weather <? lit 20))
      || (isNightTime conditions && (perceivedTemp weather <? lit 18))
  end.

End Shared.

Arguments WeatherData num : clear implicits.
Arguments Conditions : clear implicits.


(* ================================================================== *)
(** ** src/unnamed/part_000 *)
(* ================================================================== *)

Module Part000.
Section WithNumber.

Context {num : Type} `{JSNumber num}.

(** What [response.current()] yields when it is not [null]: an object whose
    [variables()] is an array (or [null]); an entry of the array is either
    missing ([None]) or a variable, given by what its [value()] returns. *)
Record VariablesWithTime : Type := {
  variables : option (list (option num))
}.

(** [variables[i]?.value()] *)
Definition value_at (variables : list (option num)) (i : nat) : option num :=
  match nth_error variables i with
  | Some (Some v) => Some v
  | _ => None
  end.

(** The function from the point where the response has arrived: [current]
    is [responses[0].current()], [currentHour] is what
    [new Date().getHours()] reads. *)
Definition getWeatherForecast (current : option VariablesWithTime)
    (currentHour : Z) : outcome (WeatherData num) :=
  try_catch
    match current with
    | None => throw "No weather data available"
    | Some current =>
      match variables current with
      | None => throw "Incomplete weather data"
      | Some variables =>
        if (List.length variables <? 4)%nat
        then throw "Incomplete weather data"
        else
          let temperature := value_at variables 0 ?? lit 0 in
          let precipitation := value_at variables 1 ?? lit 0 in
          let windSpeed := value_at variables 2 ?? lit 0 in
          let humidity := value_at variables 3 ?? lit 0 in
          let perceivedTemp := temperature in
          let perceivedTemp :=
            if windSpeed >? HIGH_WIND_THRESHOLD
            then perceivedTemp - (windSpeed - HIGH_WIND_THRESHOLD) * lit 0.1
            else perceivedTemp in
          let perceivedTemp :=
            if humidity >? HIGH_HUMIDITY_THRESHOLD
            then
              if temperature >? lit 20
              then perceivedTemp
                   + (humidity - HIGH_HUMIDITY_THRESHOLD) * lit 0.1
              else perceivedTemp
                   - (humidity - HIGH_HUMIDITY_THRESHOLD) * lit 0.05
            else perceivedTemp in
          let perceivedTemp :=
            if (currentHour <? MORNING_HOUR)%Z
               || (currentHour >? EVENING_HOUR)%Z
            then perceivedTemp - lit 2
            else perceivedTemp in
          Returned {|
            temperature := Math_round temperature;
            isRainy := precipitation >? lit 0;
            windSpeed := Math_round windSpeed;
            humidity := Math_round humidity;
            hour := currentHour;
            perceivedTemp := Math_round perceivedTemp
          |}
      end
    end
    (fun error => throw "Failed to fetch weather data").

(** A response whose array starts with the four variables that are read,
    each possibly missing; [rest] is what follows them (the request also
    asks for [is_day]). *)
Definition delivered
    (temperature precipitation windSpeed humidity : option num)
    (rest : list (option num)) : option VariablesWithTime :=
  Some {| variables :=
            Some (temperature :: precipitation :: windSpeed :: humidity
                  :: rest) |}.

(** A complete raw observation. *)
Definition observed (temperature precipitation windSpeed humidity : num)
    : option VariablesWithTime :=
  delivered (Some temperature) (Some precipitation) (Some windSpeed)
            (Some humidity) [].

End WithNumber.

Arguments VariablesWithTime num : clear implicits.

End Part000.

(* ================================================================== *)
(** ** src/app/page.tsx *)
(* ================================================================== *)

Module Page.
Section WithNumber.

Context {num : Type} `{JSNumber num}.

(** [Math.pow] is left to the engine (its accuracy is implementation
    defined, and a power with exponent 0.16 is not a rational). *)
Variable Math_pow : num -> num -> num.

(** The object [data.current] of the JSON body: any field may be absent. *)
Record CurrentWeather : Type := {
  temperature_2m : option num;
  precipitation : option num;
  windspeed_10m : option num;
  relativehumidity_2m : option num
}.

Record Data : Type := {
  current : option CurrentWeather
}.

(** The answer of [fetch]: [json] is what [await response.json()] gives (a
    body that cannot be read as an object fails there or at [data.current]),
    [status_line] stands for [`${response.status} ${response.statusText}`]. *)
Record Response : Type := {
  ok : bool;
  status_line : string;
  json : outcome Data
}.

(** The function from the point where [fetch] has answered; [hours] is
    what [new Date().getHours()] reads when the result is built. *)
Definition getWeatherForecast (response : Response) (hours : Z)
    : outcome (WeatherData num) :=
  try_catch
    (if negb (ok response)
     then throw ("API error: " ++ status_line response)
     else
       await (json response) (fun data =>
       let current := current data in
       match current with
       | None => throw "Invalid weather data structure"
       | Some current =>
         let temperature := temperature_2m current ?? lit 0 in
         let precipitation := precipitation current ?? lit 0 in
         let windSpeed := windspeed_10m current ?? lit 0 in
         let humidity := relativehumidity_2m current ?? lit 0 in
         let perceivedTemp := Math_round temperature in
         let perceivedTemp :=
           if temperature <? lit 10
           then
             Math_round
               (lit 13.12 + lit 0.6215 * temperature
                - lit 11.37 * Math_pow windSpeed (lit 0.16)
                + lit 0.3965 * temperature * Math_pow windSpeed (lit 0.16))
           else perceivedTemp in
         let perceivedTemp :=
           if temperature >? lit 27
           then
             let e :=
               (humidity / lit 100) * lit 6.11
               * Math_pow (lit 10)
                   ((lit 7.5 * temperature) / (lit 237.7 + temperature)) in
             Math_round (temperature + lit 0.5555 * (e - lit 10))
           else perceivedTemp in
         Returned {|
           temperature := Math_round temperature;
           isRainy := precipitation >? lit 0;
           windSpeed := Math_round windSpeed;
           humidity := Math_round humidity;
           hour := hours;
           perceivedTemp := perceivedTemp
         |}
       end))
    (fun error => throw "Failed to fetch weather data").

(** A successful answer whose body has a [current] object, each of the four
    fields possibly absent. *)
Definition delivered
    (temperature precipitation windSpeed humidity : option num) : Response :=
  {| ok := true;
     status_line := "200 OK";
     json := Returned {| current := Some {|
       temperature_2m := temperature;
       precipitation := precipitation;
       windspeed_10m := windSpeed;
       relativehumidity_2m := humidity |} |} |}.

(** A complete raw observation. *)
Definition observed (temperature precipitation windSpeed humidity : num)
    : Response :=
  delivered (Some temperature) (Some precipitation) (Some windSpeed)
            (Some humidity).

End WithNumber.

Arguments CurrentWeather num : clear implicits.
Arguments Data num : clear implicits.
Arguments Response num : clear implicits.

End Page.

(* ================================================================== *)
(** ** src/unnamed/part_000: getLocationName *)
(* ================================================================== *)

(** [a >= b] is evaluated as [b <= a]. *)
Definition geb {num} `{JSNumber num} (a b : num) : bool := leb b a.

Infix ">=?" := geb (at level 70, no associativity) : js_scope.

Module Geocoding.
Section WithNumber.

Context {num : Type} `{JSNumber num}.

(** [Math.abs] and [Number.prototype.toFixed] are left to the engine. *)
Variable Math_abs : num -> num.
Variable toFixed : num -> nat -> string.

(** An entry of [results] in the body of the reverse-geocoding answer; a
    field of the JSON object may be absent. *)
Record Place : Type := {
  name : option string;
  admin3 : option string;
  admin1 : option string;
  country : option string
}.

Record GeocodingResult : Type := {
  results : option (list Place)
}.

(** The answer of [fetch]; [status] stands for [`${response.status}`]. *)
Record Response : Type := {
  ok : bool;
  status : string;
  json : outcome GeocodingResult
}.

(** [data.results?.[0]] *)
Definition first_result (data : GeocodingResult) : option Place :=
  match results data with
  | Some places => hd_error places
  | None => None
  end.

(** [if (field) locationParts.push(field)]: a string is truthy when it is
    there and not empty. *)
Definition push_if (locationParts : list string) (field : option string)
    : list string :=
  match field with
  | Some text => if (text =? EmptyString)%string then locationParts
                 else (locationParts ++ [text])%list
  | None => locationParts
  end.

(** The function from the point where [fetch] has settled: [fetched] is the
    answer, or the rejection of [fetch] (a network failure, or the abort
    that the five-second timer triggers). *)
Definition getLocationName (fetched : outcome Response) (lat lon : num)
    : outcome string :=
  try_catch
    (await fetched (fun response =>
     if negb (ok response)
     then throw ("Geocoding API failed with status: " ++ status response)
     else
       await (json response) (fun data =>
       let coordinates :=
         let latDir := if lat >=? lit 0 then "N" else "S" in
         let lonDir := if lon >=? lit 0 then "E" else "W" in
         Returned (toFixed (Math_abs lat) 2 ++ "°" ++ latDir ++ ", "
                   ++ toFixed (Math_abs lon) 2 ++ "°" ++ lonDir) in
       match first_result data with
       | Some location =>
           let locationParts := @nil string in
           let locationParts := push_if locationParts (name location) in
           let locationParts := push_if locationParts (admin3 location) in
           let locationParts := push_if locationParts (admin1 location) in
           let locationParts :=
             if (List.length locationParts =? 0)%nat
             then push_if locationParts (country location)
             else locationParts in
           if (0 <? List.length locationParts)%nat
           then Returned (String.concat ", " (firstn 2 locationParts))
           else coordinates
       | None => coordinates
       end)))
    (fun error =>
       let latDir := if lat >=? lit 0 then "N" else "S" in
       let lonDir := if lon >=? lit 0 then "E" else "W" in
       Returned (toFixed (Math_abs lat) 2 ++ "°" ++ latDir ++ ", "
                 ++ toFixed (Math_abs lon) 2 ++ "°" ++ lonDir)).

End WithNumber.

Arguments Place : clear implicits.
Arguments GeocodingResult : clear implicits.
Arguments Response : clear implicits.

End Geocoding.

(* ================================================================== *)
(** ** The component [Home] of both files *)
(* ================================================================== *)

Module Home.
Section Component.

Context {num : Type} `{JSNumber num}.

(** [LocationData] is [{lat, lon, name}] in part_000 and [{lat, lon}] in
    page.tsx; only part_000 shows the line "Weather in ..." (then
    [place_name] is the field [name]), only page.tsx ends with the static
    explanation of the algorithm. *)
Variable LocationData : Type.
Variable place_name : option (LocationData -> string).
Variable explained : bool.

(** The four [useState] cells. *)
Record State : Type := {
  location : option LocationData;
  weather : option (WeatherData num);
  loading : bool;
  error : option string
}.

Definition initial : State :=
  {| location := None; weather := None; loading := false; error := None |}.

Definition setLocation (v : option LocationData) (s : State) : State :=
  {| location := v; weather := weather s; loading := loading s;
     error := error s |}.

Definition setWeather (v : option (WeatherData num)) (s : State) : State :=
  {| location := location s; weather := v; loading := loading s;
     error := error s |}.

Definition setLoading (v : bool) (s : State) : State :=
  {| location := location s; weather := weather s; loading := v;
     error := error s |}.

Definition setError (v : option string) (s : State) : State :=
  {| location := location s; weather := weather s; loading := loading s;
     error := v |}.

(** [getLocation], the handler of both buttons, up to the point where it
    has asked for the position; [geolocation_in_navigator] is
    ["geolocation" in navigator]. *)
Definition getLocation (geolocation_in_navigator : bool) (s : State) : State :=
  let s := setLoading true s in
  let s := setError None s in
  if geolocation_in_navigator then s
  else
    let s := setError (Some "Geolocation is not supported by your browser") s in
    setLoading false s.

(** The error callback handed to [getCurrentPosition]. *)
Definition positionError (s : State) : State :=
  let s := setError (Some "Unable to retrieve your location") s in
  setLoading false s.

(** The chain [.then(setWeather).catch(...).finally(...)] of the effect, once
    the promise of [getWeatherForecast] has settled. *)
Definition forecastSettled (result : outcome (WeatherData num)) (s : State)
    : State :=
  match result with
  | Returned data => setLoading false (setWeather (Some data) s)
  | Thrown _ =>
      setLoading false (setError (Some "Failed to fetch weather data") s)
  end.

(** What can happen to the component: a click on either button, the
    success callback reaching [setLocation], the error callback, and the
    forecast requested by the effect settling. *)
Inductive Event : Type :=
| Click (geolocation_in_navigator : bool)
| Positioned (place : LocationData)
| PositionFailed
| ForecastSettled (result : outcome (WeatherData num)).

Definition handle (s : State) (e : Event) : State :=
  match e with
  | Click geolocation_in_navigator => getLocation geolocation_in_navigator s
  | Positioned place => setLocation (Some place) s
  | PositionFailed => positionError s
  | ForecastSettled result => forecastSettled result s
  end.

Definition run (events : list Event) (s : State) : State :=
  fold_left handle events s.

(** What the returned JSX shows; a number is shown by its value. *)
Inductive Element : Type :=
| ErrorText (message : string)
| GetMyLocation
| LoadingText
| WeatherIn (name : option string)
| Verdict (text : string)
| TemperatureLine (value : num)
| FeelsLikeLine (value : num)
| WindSpeedLine (value : num)
| HumidityLine (value : num)
| RainLine (text : string)
| CheckAgain
| Explanation (threshold : num).

Definition is_set {A : Type} (x : option A) : bool :=
  match x with
  | Some _ => true
  | None => false
  end.

Definition render (s : State) : list Element :=
  ((match error s with
    | Some message =>
        if (message =? EmptyString)%string then [] else [ErrorText message]
    | None => []
    end)
   ++ (if negb (is_set (location s)) && negb (loading s)
       then [GetMyLocation] else [])
   ++ (if loading s then [LoadingText] else [])
   ++ (match weather s with
       | Some data =>
           (match place_name with
            | Some name => [WeatherIn (option_map name (location s))]
            | None => []
            end)
           ++ [Verdict (if shouldTakeCoat (weather s)
                        then "Yes, take your coat!"
                        else "No, you don't need a coat!");
               TemperatureLine (temperature data);
               FeelsLikeLine (perceivedTemp data);
               WindSpeedLine (windSpeed data);
               HumidityLine (humidity data);
               RainLine (if isRainy data then "It might rain"
                         else "No rain expected")]
       | None => []
       end)
   ++ (if is_set (location s) then [CheckAgain] else [])
   ++ (if explained then [Explanation HIGH_WIND_THRESHOLD] else []))%list.

End Component.

Arguments State num LocationData : clear implicits.
Arguments initial {num LocationData}.
Arguments location {num LocationData} s.
Arguments weather {num LocationData} s.
Arguments loading {num LocationData} s.
Arguments error {num LocationData} s.
Arguments setLocation {num LocationData} v s.
Arguments setWeather {num LocationData} v s.
Arguments setLoading {num LocationData} v s.
Arguments setError {num LocationData} v s.
Arguments getLocation {num LocationData} geolocation_in_navigator s.
Arguments positionError {num LocationData} s.
Arguments forecastSettled {num LocationData} result s.
Arguments handle {num LocationData} s e.
Arguments run {num LocationData} events s.
Arguments render {num _ LocationData} place_name explained s.
Arguments Event num LocationData : clear implicits.
Arguments Positioned {num LocationData} place.
Arguments PositionFailed {num LocationData}.
Arguments Click {num LocationData} geolocation_in_navigator.
Arguments ForecastSettled {num LocationData} result.

End Home.

(** The success callback of part_000: the place name is awaited, then the
    location is set. *)
Module Part000Home.
Section WithNumber.

Context {num : Type} `{JSNumber num}.

Variable Math_abs : num -> num.
Variable toFixed : num -> nat -> string.

Record LocationData : Type := {
  lat : num;
  lon : num;
  name : string
}.

Definition positionCallback (latitude longitude : num)
    (fetched : outcome Geocoding.Response) (s : Home.State num LocationData)
    : Home.State num LocationData :=
  match Geocoding.getLocationName Math_abs toFixed fetched latitude longitude
  with
  | Returned name =>
      Home.setLocation
        (Some {| lat := latitude; lon := longitude; name := name |}) s
  | Thrown _ => s
  end.

End WithNumber.

Arguments LocationData num : clear implicits.

End Part000Home.

(** The success callback of page.tsx sets the location at once. *)
Module PageHome.
Section WithNumber.

Context {num : Type} `{JSNumber num}.

Record LocationData : Type := {
  lat : num;
  lon : num
}.

Definition positionCallback (latitude longitude : num)
    (s : Home.State num LocationData) : Home.State num LocationData :=
  Home.setLocation (Some {| lat := latitude; lon := longitude |}) s.

End WithNumber.

Arguments LocationData num : clear implicits.

End PageHome.

(* ================================================================== *)
(** ** Vocabulary for the statements about the rest of the code *)
(* ================================================================== *)

Section Vocabulary.

Context {num : Type} `{JSNumber num}.

(** An answer passes the guards of page.tsx when it is ok and its body can
    be read and has a [current] object. *)
Definition answered (response : Page.Response num) : bool :=
  Page.ok response
  && match Page.json response with
     | Returned data => Home.is_set (Page.current data)
     | Thrown _ => false
     end.

(** The text of a field of a place when the field is there and not empty. *)
Definition usable (field : option string) : list string :=
  match field with
  | Some text => if (text =? EmptyString)%string then [] else [text]
  | None => []
  end.

(** The first result of a geocoding answer that is ok and can be read. *)
Definition first_place (fetched : outcome Geocoding.Response)
    : option Geocoding.Place :=
  match fetched with
  | Returned response =>
      if Geocoding.ok response
      then
        match Geocoding.json response with
        | Returned data => Geocoding.first_result data
        | Thrown _ => None
        end
      else None
  | Thrown _ => None
  end.

(** The parts a place can be named by: name, admin3 and admin1, or failing
    all three the country. *)
Definition name_parts (place : Geocoding.Place) : list string :=
  match (usable (Geocoding.name place) ++ usable (Geocoding.admin3 place)
         ++ usable (Geocoding.admin1 place))%list with
  | [] => usable (Geocoding.country place)
  | parts => parts
  end.

(** The coordinates as text, as both fallbacks of [getLocationName] write
    them. *)
Definition coordinates (Math_abs : num -> num) (toFixed : num -> nat -> string)
    (lat lon : num) : string :=
  toFixed (Math_abs lat) 2%nat ++ "°"
  ++ (if lat >=? lit 0 then "N" else "S") ++ ", "
  ++ toFixed (Math_abs lon) 2%nat ++ "°"
  ++ (if lon >=? lit 0 then "E" else "W").

(** The forecast of the last event that brought one, and the place of the
    last event that brought one. *)
Fixpoint last_forecast {LocationData : Type}
    (events : list (Home.Event num LocationData))
    (before : option (WeatherData num)) : option (WeatherData num) :=
  match events with
  | [] => before
  | Home.ForecastSettled (Returned data) :: rest =>
      last_forecast rest (Some data)
  | _ :: rest => last_forecast rest before
  end.

Fixpoint last_place {LocationData : Type}
    (events : list (Home.Event num LocationData))
    (before : option LocationData) : option LocationData :=
  match events with
  | [] => before
  | Home.Positioned place :: rest => last_place rest (Some place)
  | _ :: rest => last_place rest before
  end.

(** No click among the events. *)
Definition is_click {LocationData : Type}
    (e : Home.Event num LocationData) : bool :=
  match e with
  | Home.Click _ => true
  | _ => false
  end.

End Vocabulary.

(** Concrete inputs for the statements about the rest of the code. *)

(** A reverse-geocoding answer whose first result has a name, an empty
    admin3, an admin1 and a country. *)
Definition sample_place : Geocoding.Place :=
  {| Geocoding.name := Some "Kadikoy";
     Geocoding.admin3 := Some EmptyString;
     Geocoding.admin1 := Some "Istanbul";
     Geocoding.country := Some "Turkiye" |}.

Definition sample_answer : outcome Geocoding.Response :=
  Returned
    {| Geocoding.ok := true;
       Geocoding.status := "200";
       Geocoding.json :=
         Returned {| Geocoding.results := Some [sample_place] |} |}.

(** A stand-in for [toFixed], enough to run the functions. *)
Definition sample_toFixed (x : float) (digits : nat) : string := "41.01".

(** A state of page.tsx that holds a location, a forecast and an error. *)
Definition sample_state : Home.State float (PageHome.LocationData float) :=
  {| Home.location := Some {| PageHome.lat := 41; PageHome.lon := 29 |}%float;
     Home.weather :=
       Some {| temperature := 12; isRainy := false; windSpeed := 8;
               humidity := 60; hour := 9; perceivedTemp := 12 |}%float;
     Home.loading := false;
     Home.error := Some "Failed to fetch weather data" |}.

(* ================================================================== *)
(** ** The specification's reading of the two components *)
(* ================================================================== *)

(** [a < b] and [a <= b] as propositions: the comparison answers [true]. *)
Definition less {num : Type} `{JSNumber num} (a b : num) : Prop :=
  (a <? b) = true.

Definition leq {num : Type} `{JSNumber num} (a b : num) : Prop :=
  (a <=? b) = true.

Infix "<" := less : js_scope.
Infix "<=" := leq : js_scope.

(** What a call yields as a feels-like temperature, if it returns. *)
Definition perceived {num : Type} `{JSNumber num}
    (o : outcome (WeatherData num)) : option num :=
  match o with
  | Returned weather => Some (perceivedTemp weather)
  | Thrown _ => None
  end.

(** Section 3: the reasons a Decision may list. *)
Inductive Reason : Type := Cold | Rainy | Windy | NightAndCool.

Section Specification.

Context {num : Type} `{JSNumber num}.

(** Section 4.1, step 2: the wind-chill adjustment of the running value. *)
Definition wind_chill (windSpeed running : num) : num :=
  if lit 20 <? windSpeed
  then running - (windSpeed - lit 20) * lit 0.1
  else running.

(** Section 4.1, step 3: the humidity adjustment. *)
Definition humid (temperature humidity running : num) : num :=
  if lit 70 <? humidity
  then
    if lit 20 <? temperature
    then running + (humidity - lit 70) * lit 0.1
    else running - (humidity - lit 70) * lit 0.05
  else running.

(** Section 4.1, step 4: the time-of-day adjustment. *)
Definition time_of_day (hour : Z) (running : num) : num :=
  if (hour <? 6)%Z || (18 <? hour)%Z then running - lit 2 else running.

(** Section 4.1, steps 1 to 5: start from the raw temperature, adjust, and
    round once at the end. *)
Definition spec_perceivedTemperature (temperature windSpeed humidity : num)
    (hour : Z) : num :=
  Math_round
    (time_of_day hour (humid temperature humidity
                         (wind_chill windSpeed temperature))).

(** Section 4.2: the four rules. *)
Definition cold (w : WeatherData num) : Prop :=
  perceivedTemp w < lit 15.

Definition rainy (w : WeatherData num) : Prop :=
  isRainy w = true.

Definition windy_and_cool (w : WeatherData num) : Prop :=
  lit 20 < windSpeed w /\ perceivedTemp w < lit 20.

Definition night_and_cool (w : WeatherData num) : Prop :=
  ((hour w < 6)%Z \/ (hour w > 18)%Z) /\ perceivedTemp w < lit 18.

(** Section 4.2: the reasons list of a Decision, recording which of the four
    rules fired, in the order listed. *)
Definition spec_reasons (w : WeatherData num) : list Reason :=
  (if perceivedTemp w <? lit 15 then [Cold] else [])
  ++ (if isRainy w then [Rainy] else [])
  ++ (if (lit 20 <? windSpeed w) && (perceivedTemp w <? lit 20)
      then [Windy] else [])
  ++ (if ((hour w <? 6)%Z || (18 <? hour w)%Z) && (perceivedTemp w <? lit 18)
      then [NightAndCool] else []).

(** The perceived temperature the normaliser of part_000 reports for a raw
    observation. *)
Definition feelsLike (t p w h : num) (currentHour : Z) : option num :=
  perceived
    (Part000.getWeatherForecast (Part000.observed t p w h) currentHour).

(** Re-normalising a record: its rounded fields and its hour are handed
    to the normaliser of part_000 as a fresh observation (the record keeps
    no precipitation amount, so one is supplied). *)
Definition renormalize (o : outcome (WeatherData num)) (precipitation : num)
    : outcome (WeatherData num) :=
  match o with
  | Returned w =>
      Part000.getWeatherForecast
        (Part000.observed (temperature w) precipitation (windSpeed w)
                          (humidity w))
        (hour w)
  | Thrown error => Thrown error
  end.

End Specification.

(** Closed statements, to be read in either number instance. *)
Section Statements.

Context (num : Type) `{JSNumber num}.

(** Example 2 of section 8 of the specification. *)
Definition example_2_holds : Prop :=
  exists weather : WeatherData num,
    Part000.getWeatherForecast
      (Part000.observed (lit 10) (lit 0) (lit 30) (lit 50)) 14
    = Returned weather
    /\ (lit 30 - lit 20) * lit 0.1 = lit 1
    /\ wind_chill (lit 30) (lit 10) = lit 9
    /\ perceivedTemp weather = lit 9
    /\ cold weather
    /\ shouldTakeCoat (Some weather) = true.

(** An observation whose perceived temperature changes when the record it
    is normalised to is normalised again. *)
Definition renormalizing_differs : Prop :=
  let first :=
    Part000.getWeatherForecast
      (Part000.observed (lit 10.4) (lit 0) (lit 26) (lit 50)) 12 in
  perceived first = Some (lit 10)
  /\ perceived (renormalize first (lit 0)) = Some (lit 9)
  /\ lit 9 < lit 10.

(** More wind above the threshold, and more humidity above the threshold
    on either side of 20 degrees, each leaving the perceived temperature
    where it was. *)
Definition more_wind_same_feel : Prop :=
  lit 20 < lit 21 /\ lit 21 < lit 22
  /\ feelsLike (lit 10) (lit 0) (lit 21) (lit 50) 12 = Some (lit 10)
  /\ feelsLike (lit 10) (lit 0) (lit 22) (lit 50) 12 = Some (lit 10)
  /\ (lit 10 <? lit 10) = false.

Definition more_humidity_same_feel_warm : Prop :=
  lit 70 < lit 71 /\ lit 71 < lit 72 /\ lit 20 < lit 25
  /\ feelsLike (lit 25) (lit 0) (lit 10) (lit 71) 12 = Some (lit 25)
  /\ feelsLike (lit 25) (lit 0) (lit 10) (lit 72) 12 = Some (lit 25)
  /\ (lit 25 <? lit 25) = false.

Definition more_humidity_same_feel_cool : Prop :=
  lit 70 < lit 71 /\ lit 71 < lit 72 /\ lit 10 <= lit 20
  /\ feelsLike (lit 10) (lit 0) (lit 10) (lit 71) 12 = Some (lit 10)
  /\ feelsLike (lit 10) (lit 0) (lit 10) (lit 72) 12 = Some (lit 10)
  /\ (lit 10 <? lit 10) = false.

(** A record for which only the cold rule fires, and one for which only the
    rainy rule fires. *)
Definition only_cold : WeatherData num :=
  {| temperature := lit 10; isRainy := false; windSpeed := lit 5;
     humidity := lit 50; hour := 12; perceivedTemp := lit 10 |}.

Definition only_rainy : WeatherData num :=
  {| temperature := lit 25; isRainy := true; windSpeed := lit 5;
     humidity := lit 50; hour := 12; perceivedTemp := lit 25 |}.

(** The decision, a boolean, would determine the reasons list. *)
Definition reasons_recoverable : Prop :=
  exists report : bool -> list Reason,
    forall w : WeatherData num,
      report (shouldTakeCoat (Some w)) = spec_reasons w.

(** The two normalisers on one observation: 15 degrees, wind 40, humidity
    50, whatever the hour and whatever [Math.pow] computes. *)
Definition normalizers_disagree : Prop :=
  forall (Math_pow : num -> num -> num) (currentHour : Z),
    exists a b : num,
      perceived
        (Part000.getWeatherForecast
           (Part000.observed (lit 15) (lit 0) (lit 40) (lit 50)) currentHour)
      = Some a
      /\ perceived
           (Page.getWeatherForecast Math_pow
              (Page.observed (lit 15) (lit 0) (lit 40) (lit 50)) currentHour)
         = Some b
      /\ a < b.

End Statements.

(* ================================================================== *)
(** ** Binary64 rounding, over the integers *)
(* ================================================================== *)

(** The vocabulary of the order arguments about binary64.  Rocq specifies
    its primitive floats by the functions of [SpecFloat], which round a
    mantissa by shifting it bit by bit; here the same rounding is written
    with integer division, and a finite float is given its value in units
    of [2^-1074], the smallest positive double. *)

Module Rounding.

Local Open Scope Z_scope.

(** Nearest integer to [m / 2^n], ties to even. *)
Definition rnez (m n : Z) : Z :=
  let q := m / 2 ^ n in
  let r := m mod 2 ^ n in
  match 2 * r ?= 2 ^ n with
  | Lt => q
  | Gt => q + 1
  | Eq => if Z.even q then q else q + 1
  end.

(** The exponent of the format ([SpecFloat.fexp] at precision 53 and
    maximal exponent 1024). *)
Definition fexp64 (e : Z) : Z := Z.max (e - 53) (-1074).

(** The mantissa and the exponent that rounding [m * 2^e] gives. *)
Definition round_pos (m e : Z) : Z * Z :=
  let E := fexp64 (Zdigits2 m + e) in
  let M1 := if E <=? e then m * 2 ^ (e - E) else rnez m (E - e) in
  if M1 =? 2 ^ 53 then (2 ^ 52, E + 1) else (M1, E).

(** The float of a rounded pair: zero, finite, or an overflow. *)
Definition pack (s : bool) (r : Z * Z) : spec_float :=
  match fst r with
  | Z0 => S754_zero s
  | Zpos p =>
      if snd r <=? 971 then S754_finite s p (snd r) else S754_infinity s
  | Zneg _ => S754_nan
  end.

(** The order of the rounded pairs: zero first, then by exponent, then by
    mantissa. *)
Definition lexle (r r' : Z * Z) : Prop :=
  (fst r = 0 /\ 0 <= fst r')
  \/ (0 < fst r /\ 0 < fst r'
      /\ (snd r < snd r' \/ (snd r = snd r' /\ fst r <= fst r'))).

Definition nonpos (X : spec_float) : Prop :=
  match X with
  | S754_zero _ | S754_finite true _ _ | S754_infinity true => True
  | _ => False
  end.

Definition nonneg (X : spec_float) : Prop :=
  match X with
  | S754_zero _ | S754_finite false _ _ | S754_infinity false => True
  | _ => False
  end.

Definition signed (s : bool) (m : positive) : Z :=
  if s then Zneg m else Zpos m.

Definition sgn (s : bool) : Z := if s then -1 else 1.

(** Rounding the integer [v], in units of [2^e]: what [SpecFloat] does
    after an exact addition, and to convert an integer. *)
Definition B (v e : Z) : spec_float := binary_normalize prec emax v e false.

(** Zeros and finite values, as opposed to infinities and NaN. *)
Definition fin (X : spec_float) : bool :=
  match X with
  | S754_zero _ | S754_finite _ _ _ => true
  | _ => false
  end.

(** The value of a finite float, in units of [2^-1074]. *)
Definition ev (X : spec_float) : Z :=
  match X with
  | S754_finite s m e => signed s m * 2 ^ (e + 1074)
  | _ => 0
  end.

(** Equal as numbers: the same float, or two zeros. *)
Definition same (X Y : spec_float) : Prop :=
  SFleb X Y = true /\ SFleb Y X = true.

(** The largest finite double, [Number.MAX_VALUE]. *)
Definition MAX_VALUE : spec_float := S754_finite false 9007199254740991 971.

Definition MAX : float := 0x1.fffffffffffffp+1023%float.

(** A positive constant with a full mantissa, as [0.1] and [0.05] are. *)
Definition pos_normal (C : spec_float) : bool :=
  match C with
  | S754_finite false mc _ => Zdigits2 (Zpos mc) =? 53
  | _ => false
  end.

(** [floor (x + 1/2)] on a value in units of [2^-1074]. *)
Definition rho (v : Z) : Z := (2 * v + 2 ^ 1074) / 2 ^ 1075.

(** The shape of the wind and humidity terms of part_000, lines 82, 89
    and 92: [(x - c) * k]. *)
Definition adjustment (x c k : float) : float :=
  PrimFloat.mul (PrimFloat.sub x c) k.

End Rounding.

(** Decides a closed equation by evaluation; on [Qc] the rationals are
    compared, not the proofs that they are in lowest terms. *)
Ltac evaluate :=
  first
    [ vm_compute; reflexivity
    | apply Qc_decomp; vm_compute; reflexivity
    | apply f_equal; apply Qc_decomp; vm_compute; reflexivity ].

(* ================================================================== *)
(** ** What holds in every number instance *)
(* ================================================================== *)

Section Generic.

Context {num : Type} `{JSNumber num}.

(** The additive normaliser returns whenever the four variables it reads
    have their places in the array, and what it returns is determined field
    by field. *)
Lemma part000_returns (t p w h : option num) (rest : list (option num))
    (currentHour : Z) :
  Part000.getWeatherForecast (Part000.delivered t p w h rest) currentHour =
  Returned {|
    temperature := Math_round (t ?? lit 0);
    isRainy := lit 0 <? (p ?? lit 0);
    windSpeed := Math_round (w ?? lit 0);
    humidity := Math_round (h ?? lit 0);
    hour := currentHour;
    perceivedTemp :=
      spec_perceivedTemperature (t ?? lit 0) (w ?? lit 0) (h ?? lit 0)
                                currentHour
  |}.
Proof.
unfold Part000.getWeatherForecast, Part000.delivered, try_catch.
cbn [Part000.variables List.length Nat.ltb Nat.leb Part000.value_at nth_error].
unfold spec_perceivedTemperature, time_of_day.
rewrite <- (Z.gtb_ltb currentHour 18).
destruct t, p, w, h; reflexivity.
Qed.

(** Its guards: no [current] object, no array, or an array of fewer than
    four entries, and the call fails. *)
Lemma part000_rejects_incomplete
    (current : option (Part000.VariablesWithTime num)) (currentHour : Z) :
  match current with
  | None => True
  | Some c =>
      match Part000.variables c with
      | None => True
      | Some vs => (List.length vs < 4)%nat
      end
  end ->
  Part000.getWeatherForecast current currentHour
  = Thrown "Failed to fetch weather data".
Proof.
unfold Part000.getWeatherForecast.
destruct current as [[[vs |]] |]; cbn [Part000.variables]; intros Hshort;
  [apply Nat.ltb_lt in Hshort; rewrite Hshort | |]; reflexivity.
Qed.

Lemma feelsLike_spec (t p w h : num) (currentHour : Z) :
  feelsLike t p w h currentHour
  = Some (spec_perceivedTemperature t w h currentHour).
Proof.
unfold feelsLike, Part000.observed. rewrite part000_returns. reflexivity.
Qed.

(** The normaliser of page.tsx returns whenever the answer is ok and its
    body has a [current] object. *)
Lemma page_returns_some Math_pow (t p w h : option num) (hours : Z) :
  exists r : WeatherData num,
    Page.getWeatherForecast Math_pow (Page.delivered t p w h) hours
    = Returned r
    /\ temperature r = Math_round (t ?? lit 0)
    /\ isRainy r = (lit 0 <? (p ?? lit 0))
    /\ windSpeed r = Math_round (w ?? lit 0)
    /\ humidity r = Math_round (h ?? lit 0)
    /\ hour r = hours.
Proof.
eexists. split; [reflexivity |]. repeat split.
Qed.

(** Its guards: an answer that is not ok, a body that cannot be read, or a
    body without a [current] object, and the call fails. *)
Lemma page_rejects_bad_answer Math_pow (response : Page.Response num)
    (hours : Z) :
  Page.ok response = false
  \/ (exists message, Page.json response = Thrown message)
  \/ Page.json response = Returned {| Page.current := None |} ->
  Page.getWeatherForecast Math_pow response hours
  = Thrown "Failed to fetch weather data".
Proof.
unfold Page.getWeatherForecast.
intros [Hok | [[message Hjson] | Hjson]].
- rewrite Hok. reflexivity.
- rewrite Hjson. destruct (Page.ok response); reflexivity.
- rewrite Hjson. destruct (Page.ok response); reflexivity.
Qed.

(** In page.tsx the perceived temperature starts as the rounded temperature
    and is only replaced below 10 or above 27 degrees. *)
Lemma page_perceived_unadjusted Math_pow (t p w h : num) (hours : Z) :
  (t <? lit 10) = false -> (lit 27 <? t) = false ->
  perceived (Page.getWeatherForecast Math_pow (Page.observed t p w h) hours)
  = Some (Math_round t).
Proof.
intros Hlow Hhigh.
unfold Page.getWeatherForecast, Page.observed, Page.delivered, try_catch,
  await, perceived.
cbn [Page.ok Page.json Page.current negb nullish Page.temperature_2m
     Page.precipitation Page.windspeed_10m Page.relativehumidity_2m].
unfold gtb. rewrite Hlow, Hhigh. reflexivity.
Qed.

(** C1. For every raw observation the normaliser of part_000 returns a
    record whose perceivedTemp is the raw temperature, less
    (windSpeed - 20) * 0.1 when windSpeed exceeds 20, then (when humidity
    exceeds 70) plus (humidity - 70) * 0.1 if temperature > 20 and
    otherwise less (humidity - 70) * 0.05, then less 2 when hour < 6 or
    hour > 18, rounded once at the very end; nothing is rounded before. *)
Theorem perceived_temperature_is_additive_adjustment
    (temperature precipitation windSpeed humidity : num) (currentHour : Z) :
  perceived
    (Part000.getWeatherForecast
       (Part000.observed temperature precipitation windSpeed humidity)
       currentHour)
  = Some (Math_round
            (time_of_day currentHour
               (humid temperature humidity
                  (wind_chill windSpeed temperature)))).
Proof.
unfold Part000.observed. rewrite part000_returns. reflexivity.
Qed.

(** C2. For every normalised record, shouldTakeCoat answers true if and
    only if at least one of the four rules holds: cold, rainy,
    windy-and-cool, night-and-cool. *)
Theorem takeCoat_iff_a_rule_holds (w : WeatherData num) :
  shouldTakeCoat (Some w) = true <->
  cold w \/ rainy w \/ windy_and_cool w \/ night_and_cool w.
Proof.
unfold shouldTakeCoat, cold, rainy, windy_and_cool, night_and_cool, less.
cbn [isCold conditions_isRainy isWindy isNightTime].
unfold gtb, HIGH_WIND_THRESHOLD, MORNING_HOUR, EVENING_HOUR.
rewrite !orb_true_iff, !andb_true_iff, orb_true_iff.
rewrite Z.ltb_lt, Z.gtb_ltb, Z.ltb_lt.
intuition lia.
Qed.

(** C6. Both normalisers are functions of what was delivered and of the
    hour read (page.tsx also of [Math.pow]), so equal inputs give equal
    outputs; for every value of the four fields, finite or not, in range or
    not, present or missing, they return a record and throw nothing; and a
    missing field yields the very record that the value 0 in its place
    yields. *)
Theorem normalizer_total_and_lenient
    (Math_pow : num -> num -> num)
    (t p w h : option num) (rest : list (option num)) (currentHour : Z) :
  (exists r : WeatherData num,
     Part000.getWeatherForecast (Part000.delivered t p w h rest) currentHour
     = Returned r
     /\ Part000.getWeatherForecast
          (Part000.observed (t ?? lit 0) (p ?? lit 0) (w ?? lit 0)
                            (h ?? lit 0)) currentHour
        = Returned r)
  /\ (exists r : WeatherData num,
        Page.getWeatherForecast Math_pow (Page.delivered t p w h) currentHour
        = Returned r
        /\ Page.getWeatherForecast Math_pow
             (Page.observed (t ?? lit 0) (p ?? lit 0) (w ?? lit 0)
                            (h ?? lit 0)) currentHour
           = Returned r).
Proof.
split.
- eexists. split; [apply part000_returns |].
  unfold Part000.observed. rewrite part000_returns. reflexivity.
- destruct t, p, w, h; eexists; split; reflexivity.
Qed.

(** The reasons list of the specification holds a reason exactly when its
    rule holds. *)
Lemma spec_reasons_records_rules (w : WeatherData num) :
  (In Cold (spec_reasons w) <-> cold w)
  /\ (In Rainy (spec_reasons w) <-> rainy w)
  /\ (In Windy (spec_reasons w) <-> windy_and_cool w)
  /\ (In NightAndCool (spec_reasons w) <-> night_and_cool w).
Proof.
unfold spec_reasons, cold, rainy, windy_and_cool, night_and_cool, less.
rewrite <- !Z.ltb_lt, (Z.gt_lt_iff (hour w) 18), <- (Z.ltb_lt 18 (hour w)).
destruct (perceivedTemp w <? lit 15), (isRainy w), (lit 20 <? windSpeed w),
  (perceivedTemp w <? lit 20), (hour w <? 6)%Z, (18 <? hour w)%Z,
  (perceivedTemp w <? lit 18);
  cbn [andb orb app In];
  intuition congruence.
Qed.

(** C7, amended. shouldTakeCoat yields the boolean alone: it is true exactly
    when the reasons list of the specification (cold, rainy, windy-and-cool,
    night-and-cool, in this order, each present when its rule holds) is not
    empty. *)
Theorem takeCoat_iff_some_reason (w : WeatherData num) :
  shouldTakeCoat (Some w) = true <-> spec_reasons w <> [].
Proof.
unfold shouldTakeCoat, spec_reasons.
cbn [isCold conditions_isRainy isWindy isNightTime].
unfold gtb, HIGH_WIND_THRESHOLD, MORNING_HOUR, EVENING_HOUR.
rewrite (Z.gtb_ltb (hour w) 18).
destruct (perceivedTemp w <? lit 15), (isRainy w), (lit 20 <? windSpeed w),
  (perceivedTemp w <? lit 20), (hour w <? 6)%Z, (18 <? hour w)%Z,
  (perceivedTemp w <? lit 18);
  cbn [andb orb app]; split; congruence.
Qed.

(** C9. In page.tsx, whenever the raw temperature lies in 10 <= t <= 27,
    perceivedTemp is Math.round(temperature), whatever the wind speed, the
    humidity, the hour and [Math.pow]. *)
Theorem page_mild_range_is_rounded_temperature
    (Math_pow : num -> num -> num) (t p w h : num) (hours : Z) :
  lit 10 <= t -> t <= lit 27 ->
  perceived (Page.getWeatherForecast Math_pow (Page.observed t p w h) hours)
  = Some (Math_round t).
Proof.
intros Hlow Hhigh.
apply page_perceived_unadjusted; apply leb_not_gt; assumption.
Qed.

(** C10. While no weather record is available (the state is null),
    shouldTakeCoat answers false. *)
Theorem no_weather_no_coat : shouldTakeCoat (num := num) None = false.
Proof. unfold shouldTakeCoat. reflexivity. Qed.

(** C4, amended. When the raw temperature, wind speed and humidity are
    whole numbers already (rounding leaves them as they are), normalising
    the normalised record again, with whatever precipitation, yields the
    same perceivedTemp as the first normalisation. *)
Theorem renormalizing_whole_numbers
    (t p p' w h : num) (currentHour : Z)
    (Ht : Math_round t = t) (Hw : Math_round w = w)
    (Hh : Math_round h = h) :
  exists a : num,
    feelsLike t p w h currentHour = Some a
    /\ perceived
         (renormalize
            (Part000.getWeatherForecast (Part000.observed t p w h)
                                        currentHour)
            p')
       = Some a.
Proof.
unfold feelsLike, Part000.observed.
rewrite part000_returns. cbn [nullish renormalize perceived].
cbn [temperature windSpeed humidity hour perceivedTemp].
rewrite Ht, Hw, Hh. unfold Part000.observed.
rewrite part000_returns. cbn [nullish perceived perceivedTemp].
eexists. split; reflexivity.
Qed.

End Generic.

(** C9 at 15 degrees, wind 40, humidity 90, 11 pm, in binary64. *)
Lemma page_mild_range_is_rounded_temperature_witness :
  lit 10 <= 15%float /\ 15%float <= lit 27
  /\ perceived
       (Page.getWeatherForecast (fun x y : float => PrimFloat.mul x y)
          (Page.observed 15 0 40 90)%float 23)
     = Some (Math_round 15%float).
Proof.
split; [vm_compute; reflexivity | split; [vm_compute; reflexivity |]].
apply (page_mild_range_is_rounded_temperature
         (fun x y : float => PrimFloat.mul x y)
         15%float 0%float 40%float 90%float 23);
  vm_compute; reflexivity.
Defined.

(** C4, amended, at 10 degrees, wind 26, humidity 50, noon, in binary64. *)
Lemma renormalizing_whole_numbers_witness :
  Math_round 10%float = 10%float /\ Math_round 26%float = 26%float
  /\ Math_round 50%float = 50%float
  /\ exists a : float,
       feelsLike 10%float 0%float 26%float 50%float 12 = Some a
       /\ perceived
            (renormalize
               (Part000.getWeatherForecast
                  (Part000.observed 10 0 26 50)%float 12) 1%float)
          = Some a.
Proof.
repeat (split; [vm_compute; reflexivity |]).
apply (renormalizing_whole_numbers 10%float 0%float 1%float 26%float
         50%float 12); vm_compute; reflexivity.
Defined.

(* ================================================================== *)
(** ** Closed examples, in binary64 and in exact arithmetic *)
(* ================================================================== *)

(** The literals of the two files, read through [lit], are the doubles that
    the same literals denote. *)
Example binary64_literals :
  map Binary64.lit
      [0.1; 0.05; 13.12; 0.6215; 11.37; 0.16; 0.3965; 6.11; 7.5; 237.7;
       0.5555; 20; 70; 100]%Q
  = [0.1; 0.05; 13.12; 0.6215; 11.37; 0.16; 0.3965; 6.11; 7.5; 237.7;
     0.5555; 20; 70; 100]%float.
Proof. vm_compute. reflexivity. Qed.

(** [Math.round] on ties, on negative values, next to one half and beyond
    2^52. *)
Example binary64_Math_round :
  map Binary64.Math_round
      [2.5; -2.5; 0.5; 0.49999999999999994; -0.2; -0.5; -0.51; 9.8; 9.4;
       19.5; 4503599627370495.5; 4503599627370497; infinity]%float
  = [3; -2; 1; 0; -0; -0; -1; 10; 9; 20; 4503599627370496;
     4503599627370497; infinity]%float.
Proof. vm_compute. reflexivity. Qed.

Example exact_Math_round :
  map (fun q => Exact.round_Z (Q2Qc q))
      [2.5; -2.5; 0.5; 0.4; -0.2; -0.5; -0.51; 9.8; 9.4; 19.5]%Q
  = [3; -2; 1; 0; 0; 0; -1; 10; 9; 20]%Z.
Proof. vm_compute. reflexivity. Qed.

(** Examples 1, 3 and 4 of section 8 of the specification. *)
Example examples_1_3_4_binary64 :
  feelsLike 25%float 0%float 10%float 50%float 14 = Some 25%float
  /\ shouldTakeCoat
       (match Part000.getWeatherForecast
                (Part000.observed 25 0 10 50)%float 14 with
        | Returned w => Some w
        | Thrown _ => None
        end) = false
  /\ (exists w : WeatherData float,
        Part000.getWeatherForecast (Part000.observed 22 1 5 40)%float 12
        = Returned w
        /\ isRainy w = true /\ shouldTakeCoat (Some w) = true)
  /\ (exists w : WeatherData float,
        Part000.getWeatherForecast (Part000.observed 16 0 5 50)%float 2
        = Returned w
        /\ perceivedTemp w = 14%float /\ cold w /\ night_and_cool w
        /\ shouldTakeCoat (Some w) = true).
Proof.
repeat split; try (vm_compute; reflexivity);
  eexists; (split; [vm_compute; reflexivity |]);
  repeat split; vm_compute; auto with zarith.
Qed.

(** C3. On temperature 10, precipitation 0, windSpeed 30, humidity 50, hour
    14 the normaliser of part_000 takes (30 - 20) * 0.1 = 1 off the 10
    degrees, giving perceivedTemp 9; the cold rule fires and shouldTakeCoat
    answers true. *)
Theorem example_2_cold_by_wind : example_2_holds float /\ example_2_holds Qc.
Proof.
split; eexists; (split; [vm_compute; reflexivity |]);
  repeat split; evaluate.
Qed.

(** On the observation of example 2 the normaliser of page.tsx reports 10,
    not 9: at 10 degrees neither of its two formulas applies. *)
Example example_2_on_page (Math_pow : float -> float -> float) :
  perceived
    (Page.getWeatherForecast Math_pow (Page.observed 10 0 30 50)%float 14)
  = Some 10%float.
Proof. vm_compute. reflexivity. Qed.

(** C4, as stated, fails: the observation 10.4 degrees, wind 26, humidity
    50 at noon is perceived as round(10.4 - 0.6) = 10, while the record it
    is normalised to (temperature 10, wind 26, humidity 50, hour 12) is
    perceived as round(10 - 0.6) = 9. *)
Lemma renormalizing_moves_perceived_temperature :
  renormalizing_differs float /\ renormalizing_differs Qc.
Proof.
split; repeat split; evaluate.
Qed.

(** C5, as stated, fails in each of its three parts, because the result is
    rounded: at 10 degrees, humidity 50, noon, wind 21 and wind 22 are both
    perceived as 10; at 25 degrees, wind 10, humidity 71 and 72 are both
    perceived as 25; at 10 degrees, wind 10, humidity 71 and 72 are both
    perceived as 10. *)
Lemma more_wind_or_humidity_same_perceived_temperature :
  (more_wind_same_feel float /\ more_humidity_same_feel_warm float
   /\ more_humidity_same_feel_cool float)
  /\ (more_wind_same_feel Qc /\ more_humidity_same_feel_warm Qc
      /\ more_humidity_same_feel_cool Qc).
Proof.
repeat split; evaluate.
Qed.

(** C7, as stated, fails: shouldTakeCoat yields a boolean and nothing else,
    and the boolean does not tell which rules fired.  On [only_cold] the
    reasons are [Cold], on [only_rainy] they are [Rainy], and the answer is
    true on both. *)
Lemma decision_carries_no_reasons :
  ~ reasons_recoverable float /\ ~ reasons_recoverable Qc.
Proof.
split; intros [report Hreport].
- pose proof (Hreport (only_cold float)) as Hc.
  pose proof (Hreport (only_rainy float)) as Hr.
  vm_compute in Hc, Hr. congruence.
- pose proof (Hreport (only_cold Qc)) as Hc.
  pose proof (Hreport (only_rainy Qc)) as Hr.
  vm_compute in Hc, Hr. congruence.
Qed.

(** C8. The two normalisers are not reconcilable: on 15 degrees, wind 40,
    humidity 50 the additive one of part_000 reports 13 by day and 11 by
    night, the one of page.tsx reports 15, whatever [Math.pow] computes. *)
Theorem the_two_normalizers_disagree :
  normalizers_disagree float /\ normalizers_disagree Qc.
Proof.
split; intros Math_pow currentHour; unfold Part000.observed;
  rewrite part000_returns;
  unfold spec_perceivedTemperature, time_of_day;
  destruct ((currentHour <? 6)%Z || (18 <? currentHour)%Z);
  do 2 eexists; (split; [reflexivity |]);
  (split; [vm_compute; reflexivity |]);
  vm_compute; reflexivity.
Qed.

(* ================================================================== *)
(** ** Order, in exact arithmetic *)
(* ================================================================== *)

Module ExactOrder.

Local Open Scope Qc_scope.

Lemma ltb_lt (a b : Qc) : Exact.ltb a b = true <-> a < b.
Proof.
unfold Exact.ltb. rewrite Qclt_alt.
destruct (a ?= b)%Qc; intuition congruence.
Qed.

Lemma leb_le (a b : Qc) : Exact.leb a b = true <-> a <= b.
Proof.
unfold Exact.leb. rewrite Qcle_alt.
destruct (a ?= b)%Qc; intuition congruence.
Qed.

End ExactOrder.

(* ================================================================== *)
(** ** The rest of the code: the two fetchers *)
(* ================================================================== *)

Section Fetchers.

Context {num : Type} `{JSNumber num}.

(** X2. getWeatherForecast of page.tsx returns a record exactly when the
    answer is ok and its body can be read and has a [current] object;
    whenever it throws, the message is "Failed to fetch weather data". *)
Theorem page_returns_iff_answered
    (Math_pow : num -> num -> num) (response : Page.Response num)
    (hours : Z) :
  ((exists r, Page.getWeatherForecast Math_pow response hours = Returned r)
   <-> answered response = true)
  /\ (forall message,
        Page.getWeatherForecast Math_pow response hours = Thrown message ->
        message = "Failed to fetch weather data").
Proof.
split.
- unfold answered, Page.getWeatherForecast, try_catch, await.
  destruct (Page.ok response); cbn [negb andb].
  + destruct (Page.json response) as [[[c |]] | m]; cbn [Page.current Home.is_set].
    * split; [reflexivity | intros _; eexists; reflexivity].
    * split; [intros [r Hr]; discriminate Hr | discriminate].
    * split; [intros [r Hr]; discriminate Hr | discriminate].
  + split; [intros [r Hr]; discriminate Hr | discriminate].
- intros message. unfold Page.getWeatherForecast, try_catch.
  match goal with
  | |- match ?body with _ => _ end = _ -> _ => destruct body
  end; [discriminate |].
  unfold throw. congruence.
Qed.

(** X3. Rain decides: whenever a precipitation above 0 is delivered, the
    record that either file returns makes shouldTakeCoat answer true,
    whatever the temperature, wind, humidity and hour (present or
    missing). *)
Theorem rain_means_coat
    (Math_pow : num -> num -> num) (t w h : option num) (p : num)
    (rest : list (option num)) (currentHour : Z) :
  lit 0 < p ->
  (exists r,
     Part000.getWeatherForecast (Part000.delivered t (Some p) w h rest)
                                currentHour = Returned r
     /\ shouldTakeCoat (Some r) = true)
  /\ (exists r,
        Page.getWeatherForecast Math_pow (Page.delivered t (Some p) w h)
                                currentHour = Returned r
        /\ shouldTakeCoat (Some r) = true).
Proof.
intros Hrain. unfold less in Hrain. split.
- eexists. split; [apply part000_returns |].
  unfold shouldTakeCoat.
  cbn [isCold conditions_isRainy isWindy isNightTime isRainy nullish].
  rewrite Hrain. now rewrite orb_true_r.
- destruct (page_returns_some Math_pow t (Some p) w h currentHour)
    as (r & Hr & _ & Hrainy & _).
  exists r. split; [exact Hr |].
  unfold shouldTakeCoat.
  cbn [isCold conditions_isRainy isWindy isNightTime].
  cbn [nullish] in Hrainy. rewrite Hrainy, Hrain. now rewrite orb_true_r.
Qed.

(** X4. In page.tsx neither the hour nor the precipitation ever changes the
    perceived temperature; the humidity does not unless temperature > 27,
    and the wind speed does not unless temperature < 10. *)
Theorem page_perceived_ignores
    (Math_pow : num -> num -> num) (t p p' w w' h h' : num)
    (hours hours' : Z) :
  perceived (Page.getWeatherForecast Math_pow (Page.observed t p w h) hours)
  = perceived
      (Page.getWeatherForecast Math_pow (Page.observed t p' w h) hours')
  /\ ((lit 27 <? t) = false ->
      perceived
        (Page.getWeatherForecast Math_pow (Page.observed t p w h) hours)
      = perceived
          (Page.getWeatherForecast Math_pow (Page.observed t p w h') hours))
  /\ ((t <? lit 10) = false ->
      perceived
        (Page.getWeatherForecast Math_pow (Page.observed t p w h) hours)
      = perceived
          (Page.getWeatherForecast Math_pow (Page.observed t p w' h) hours)).
Proof.
unfold Page.getWeatherForecast, Page.observed, Page.delivered, try_catch,
  await, perceived.
cbn [Page.ok Page.json Page.current negb nullish Page.temperature_2m
     Page.precipitation Page.windspeed_10m Page.relativehumidity_2m
     perceivedTemp].
unfold gtb. repeat split.
- intros ->. reflexivity.
- intros ->. reflexivity.
Qed.

End Fetchers.

Lemma rain_means_coat_witness :
  lit 0 < 1%float
  /\ (exists r,
        Part000.getWeatherForecast
          (Part000.delivered (Some 30%float) (Some 1%float) None None [])
          12 = Returned r
        /\ shouldTakeCoat (Some r) = true)
  /\ (exists r,
        Page.getWeatherForecast (fun x y : float => PrimFloat.mul x y)
          (Page.delivered (Some 30%float) (Some 1%float) None None)
          12 = Returned r
        /\ shouldTakeCoat (Some r) = true).
Proof.
split; [vm_compute; reflexivity |].
apply (rain_means_coat (fun x y : float => PrimFloat.mul x y)
         (Some 30%float) None None 1%float [] 12).
vm_compute; reflexivity.
Defined.

Lemma page_perceived_ignores_witness :
  (lit 27 <? 5%float) = false /\ (20%float <? lit 10) = false
  /\ perceived
       (Page.getWeatherForecast (fun x y : float => PrimFloat.mul x y)
          (Page.observed 5 0 30 40)%float 3)
     = perceived
         (Page.getWeatherForecast (fun x y : float => PrimFloat.mul x y)
            (Page.observed 5 0 30 95)%float 3)
  /\ perceived
       (Page.getWeatherForecast (fun x y : float => PrimFloat.mul x y)
          (Page.observed 20 0 30 40)%float 3)
     = perceived
         (Page.getWeatherForecast (fun x y : float => PrimFloat.mul x y)
            (Page.observed 20 0 80 40)%float 3).
Proof.
split; [vm_compute; reflexivity |].
split; [vm_compute; reflexivity |].
split.
- refine (proj1 (proj2 (page_perceived_ignores
                   (fun x y : float => PrimFloat.mul x y)
                   5%float 0%float 0%float 30%float 30%float 40%float
                   95%float 3 3)) _).
  vm_compute; reflexivity.
- refine (proj2 (proj2 (page_perceived_ignores
                   (fun x y : float => PrimFloat.mul x y)
                   20%float 0%float 0%float 30%float 80%float 40%float
                   40%float 3 3)) _).
  vm_compute; reflexivity.
Defined.

(* ================================================================== *)
(** ** The rest of the code: getLocationName *)
(* ================================================================== *)

Section PlaceNames.

Context {num : Type} `{JSNumber num}.

Variable Math_abs : num -> num.
Variable toFixed : num -> nat -> string.

Lemma push_if_usable (parts : list string) (field : option string) :
  Geocoding.push_if parts field = (parts ++ usable field)%list.
Proof.
unfold Geocoding.push_if, usable.
destruct field as [text |]; [destruct (text =? EmptyString)%string |];
  now rewrite ?app_nil_r.
Qed.

Lemma usable_not_empty (field : option string) :
  Forall (fun text => text <> EmptyString) (usable field).
Proof.
unfold usable. destruct field as [text |]; [| constructor].
destruct (String.eqb_spec text EmptyString); constructor; auto.
Qed.

Lemma name_parts_not_empty (place : Geocoding.Place) :
  Forall (fun text => text <> EmptyString) (name_parts place).
Proof.
unfold name_parts.
pose proof (usable_not_empty (Geocoding.name place)) as Hn.
pose proof (usable_not_empty (Geocoding.admin3 place)) as H3.
pose proof (usable_not_empty (Geocoding.admin1 place)) as H1.
assert (Hall : Forall (fun text => text <> EmptyString)
                 (usable (Geocoding.name place)
                  ++ usable (Geocoding.admin3 place)
                  ++ usable (Geocoding.admin1 place))%list)
  by (rewrite !Forall_app; auto).
destruct (usable (Geocoding.name place) ++ usable (Geocoding.admin3 place)
          ++ usable (Geocoding.admin1 place))%list;
  [apply usable_not_empty | exact Hall].
Qed.

(** What getLocationName yields, case by case. *)
Lemma getLocationName_cases (fetched : outcome Geocoding.Response)
    (lat lon : num) :
  Geocoding.getLocationName Math_abs toFixed fetched lat lon
  = Returned
      match first_place fetched with
      | Some place =>
          match name_parts place with
          | [] => coordinates Math_abs toFixed lat lon
          | parts => String.concat ", " (firstn 2 parts)
          end
      | None => coordinates Math_abs toFixed lat lon
      end.
Proof.
unfold Geocoding.getLocationName, first_place, try_catch, await, coordinates.
destruct fetched as [response | rejection]; [| reflexivity].
destruct (Geocoding.ok response); cbn [negb]; [| reflexivity].
destruct (Geocoding.json response) as [data | failure]; [| reflexivity].
destruct (Geocoding.first_result data) as [place |]; [| reflexivity].
rewrite !push_if_usable. cbn [app].
rewrite <- (app_assoc (usable (Geocoding.name place))).
unfold name_parts.
destruct (usable (Geocoding.name place) ++ usable (Geocoding.admin3 place)
          ++ usable (Geocoding.admin1 place))%list as [| part parts].
- cbn [List.length Nat.eqb app].
  destruct (usable (Geocoding.country place)); reflexivity.
- reflexivity.
Qed.

(** X5. getLocationName never rejects: whatever happens to the request (a
    network failure, the five-second abort, a status that is not ok, a body
    that cannot be read, no result, a first result without any usable
    field), it returns a text, and in each of these cases the text is the
    coordinates, written the same way. *)
Theorem getLocationName_never_rejects
    (fetched : outcome Geocoding.Response) (lat lon : num) :
  (exists text,
     Geocoding.getLocationName Math_abs toFixed fetched lat lon
     = Returned text)
  /\ (match first_place fetched with
      | Some place => name_parts place = []
      | None => True
      end ->
      Geocoding.getLocationName Math_abs toFixed fetched lat lon
      = Returned (coordinates Math_abs toFixed lat lon)).
Proof.
rewrite getLocationName_cases. split; [eexists; reflexivity |].
destruct (first_place fetched) as [place |]; [| reflexivity].
intros ->. reflexivity.
Qed.

(** X6. When the first result of a readable answer has a usable field,
    getLocationName returns at most two parts joined by ", ": the first two
    of name, admin3, admin1 that are present and not empty, in this order;
    the country is returned only when none of the three is usable, and
    then alone. *)
Theorem getLocationName_parts
    (fetched : outcome Geocoding.Response) (lat lon : num)
    (place : Geocoding.Place) :
  first_place fetched = Some place ->
  let main := (usable (Geocoding.name place)
               ++ usable (Geocoding.admin3 place)
               ++ usable (Geocoding.admin1 place))%list in
  (main <> [] ->
   Geocoding.getLocationName Math_abs toFixed fetched lat lon
   = Returned (String.concat ", " (firstn 2 main)))
  /\ (forall land, main = [] -> usable (Geocoding.country place) = [land] ->
      Geocoding.getLocationName Math_abs toFixed fetched lat lon
      = Returned land).
Proof.
intros Hplace main. rewrite getLocationName_cases, Hplace.
unfold name_parts. fold main. split.
- destruct main; [congruence | reflexivity].
- intros land -> ->. reflexivity.
Qed.

(** The text built from the first place, or from the coordinates, has at
    least one character. *)
Lemma place_text_not_empty (found : option Geocoding.Place) (lat lon : num) :
  match found with
  | Some place =>
      match name_parts place with
      | [] => coordinates Math_abs toFixed lat lon
      | parts => String.concat ", " (firstn 2 parts)
      end
  | None => coordinates Math_abs toFixed lat lon
  end <> EmptyString.
Proof.
assert (Hcoordinates : coordinates Math_abs toFixed lat lon <> EmptyString).
{ unfold coordinates.
  destruct (toFixed (Math_abs lat) 2) as [| c rest]; cbn; discriminate. }
destruct found as [place |]; [| exact Hcoordinates].
pose proof (name_parts_not_empty place) as Hparts.
destruct (name_parts place) as [| part [| second parts]];
  [exact Hcoordinates | |].
- cbn. now inversion Hparts.
- cbn [firstn String.concat]. inversion Hparts as [| ? ? Hpart _]; subst.
  destruct part; [congruence | cbn; discriminate].
Qed.

(** X7. getLocationName never returns the empty text. *)
Theorem getLocationName_not_empty
    (fetched : outcome Geocoding.Response) (lat lon : num) (text : string) :
  Geocoding.getLocationName Math_abs toFixed fetched lat lon = Returned text ->
  text <> EmptyString.
Proof.
rewrite getLocationName_cases. intros [= <-]. apply place_text_not_empty.
Qed.

(** X17. The success callback of part_000 always ends with a location
    set: whatever becomes of the reverse-geocoding request, the location
    holds the coordinates received and a name that is not empty, and the
    other three cells of the state are left as they were. *)
Theorem position_callback_sets_location
    (latitude longitude : num) (fetched : outcome Geocoding.Response)
    (s : Home.State num (Part000Home.LocationData num)) :
  exists name : string,
    name <> EmptyString
    /\ Part000Home.positionCallback Math_abs toFixed latitude longitude
         fetched s
       = {| Home.location :=
              Some {| Part000Home.lat := latitude;
                      Part000Home.lon := longitude;
                      Part000Home.name := name |};
            Home.weather := Home.weather s;
            Home.loading := Home.loading s;
            Home.error := Home.error s |}.
Proof.
unfold Part000Home.positionCallback. rewrite getLocationName_cases.
eexists. split; [apply place_text_not_empty | reflexivity].
Qed.

End PlaceNames.

(* ================================================================== *)
(** ** The rest of the code: the decision, and the two together *)
(* ================================================================== *)

(** The comparisons of both number instances are transitive, and the
    three thresholds of shouldTakeCoat are in order. *)
Class JSOrder (num : Type) `{JSNumber num} : Prop := {
  leb_ltb_trans : forall a b c : num, a <= b -> b < c -> a < c;
  ltb_leb_trans : forall a b c : num, a < b -> b <= c -> a < c;
  thresholds_ordered : lit 15 <= lit 18 /\ lit 18 <= lit 20
}.

Ltac compare_cases :=
  repeat match goal with
  | |- context [Pos.compare_cont Eq ?a ?b] =>
      change (Pos.compare_cont Eq a b) with (Pos.compare a b)
  end;
  repeat match goal with
  | |- context [Z.compare ?a ?b] => destruct (Z.compare_spec a b)
  | |- context [Pos.compare ?a ?b] => destruct (Pos.compare_spec a b)
  end;
  cbn; try congruence; try lia.

Lemma SFleb_ltb_trans (x y z : spec_float) :
  SFleb x y = true -> SFltb y z = true -> SFltb x z = true.
Proof.
unfold SFleb, SFltb.
destruct x as [[] | [] | | [] mx ex], y as [[] | [] | | [] my ey],
  z as [[] | [] | | [] mz ez]; cbn; try congruence; compare_cases.
Qed.

Lemma SFltb_leb_trans (x y z : spec_float) :
  SFltb x y = true -> SFleb y z = true -> SFltb x z = true.
Proof.
unfold SFleb, SFltb.
destruct x as [[] | [] | | [] mx ex], y as [[] | [] | | [] my ey],
  z as [[] | [] | | [] mz ez]; cbn; try congruence; compare_cases.
Qed.

#[global] Instance binary64_order : JSOrder float.
Proof.
split.
- intros a b c. unfold leq, less. cbn [ltb leb Binary64.number].
  rewrite leb_spec, !ltb_spec. apply SFleb_ltb_trans.
- intros a b c. unfold leq, less. cbn [ltb leb Binary64.number].
  rewrite leb_spec, !ltb_spec. apply SFltb_leb_trans.
- split; vm_compute; reflexivity.
Qed.

#[global] Instance exact_order : JSOrder Qc.
Proof.
split.
- intros a b c. unfold leq, less. cbn [ltb leb Exact.number].
  rewrite ExactOrder.leb_le, !ExactOrder.ltb_lt. apply Qcle_lt_trans.
- intros a b c. unfold leq, less. cbn [ltb leb Exact.number].
  rewrite ExactOrder.leb_le, !ExactOrder.ltb_lt. apply Qclt_le_trans.
- split; vm_compute; reflexivity.
Qed.

Section Decision.

Context {num : Type} `{JSOrder num}.

Lemma not_below (a b c : num) : a <= b -> c <= a -> (b <? c) = false.
Proof.
intros Hab Hca. destruct (b <? c) eqn:Hbc; [| reflexivity].
pose proof (leb_ltb_trans a b c Hab Hbc) as Hac.
apply leb_not_gt in Hca. unfold less in Hac. congruence.
Qed.

(** X8. The decision is monotone in coldness: of two records that differ
    only by their temperatures, if the one perceived as warmer calls for a
    coat, so does the one perceived as colder (or as warm). *)
Theorem colder_keeps_coat (warmer colder : WeatherData num) :
  isRainy colder = isRainy warmer ->
  windSpeed colder = windSpeed warmer ->
  hour colder = hour warmer ->
  perceivedTemp colder <= perceivedTemp warmer ->
  shouldTakeCoat (Some warmer) = true ->
  shouldTakeCoat (Some colder) = true.
Proof.
intros Hrain Hwind Hhour Hle.
unfold shouldTakeCoat.
cbn [isCold conditions_isRainy isWindy isNightTime].
rewrite Hrain, Hwind, Hhour.
rewrite !orb_true_iff, !andb_true_iff.
pose proof (leb_ltb_trans _ _ (lit 15) Hle) as H15.
pose proof (leb_ltb_trans _ _ (lit 18) Hle) as H18.
pose proof (leb_ltb_trans _ _ (lit 20) Hle) as H20.
unfold less in *. tauto.
Qed.

(** X9. Wind and night alone never call for a coat: when it does not rain
    and the perceived temperature is 20 or more, shouldTakeCoat answers
    false, whatever the wind speed and the hour. *)
Theorem warm_and_dry_no_coat (w : WeatherData num) :
  isRainy w = false ->
  lit 20 <= perceivedTemp w ->
  shouldTakeCoat (Some w) = false.
Proof.
intros Hdry Hwarm.
destruct thresholds_ordered as [H1518 H1820].
assert (H20 : (perceivedTemp w <? lit 20) = false)
  by now apply leb_not_gt.
assert (H18 : (perceivedTemp w <? lit 18) = false).
{ destruct (perceivedTemp w <? lit 18) eqn:Hlt; [| reflexivity].
  pose proof (ltb_leb_trans _ _ _ Hlt H1820) as Hcontra.
  unfold less in Hcontra. congruence. }
assert (H15 : (perceivedTemp w <? lit 15) = false).
{ destruct (perceivedTemp w <? lit 15) eqn:Hlt; [| reflexivity].
  pose proof (ltb_leb_trans _ _ _ Hlt H1518) as Hcontra.
  unfold less in Hcontra. congruence. }
unfold shouldTakeCoat.
cbn [isCold conditions_isRainy isWindy isNightTime].
rewrite Hdry, H15, H18, H20. now rewrite !andb_false_r.
Qed.

End Decision.

Lemma colder_keeps_coat_witness :
  let warmer : WeatherData float :=
    {| temperature := 17; isRainy := false; windSpeed := 30; humidity := 40;
       hour := 12; perceivedTemp := 19 |}%float in
  let colder : WeatherData float :=
    {| temperature := 12; isRainy := false; windSpeed := 30; humidity := 40;
       hour := 12; perceivedTemp := 12 |}%float in
  perceivedTemp colder <= perceivedTemp warmer
  /\ shouldTakeCoat (Some warmer) = true
  /\ shouldTakeCoat (Some colder) = true.
Proof.
cbv zeta.
split; [vm_compute; reflexivity | split; [vm_compute; reflexivity |]].
refine (colder_keeps_coat
          {| temperature := 17; isRainy := false; windSpeed := 30;
             humidity := 40; hour := 12; perceivedTemp := 19 |}%float
          _ _ _ _ _ _); vm_compute; reflexivity.
Defined.

Lemma warm_and_dry_no_coat_witness :
  let w : WeatherData float :=
    {| temperature := 22; isRainy := false; windSpeed := 45; humidity := 40;
       hour := 23; perceivedTemp := 20 |}%float in
  isRainy w = false /\ lit 20 <= perceivedTemp w
  /\ shouldTakeCoat (Some w) = false.
Proof.
cbv zeta.
split; [reflexivity | split; [vm_compute; reflexivity |]].
apply warm_and_dry_no_coat; vm_compute; reflexivity.
Defined.

(* ================================================================== *)
(** ** Binary64: rounding is monotone *)
(* ================================================================== *)

(** The results of binary64 addition, subtraction and multiplication are
    the roundings of the exact results, and rounding is monotone; so the
    operations are monotone wherever no NaN arises.  All of it is derived
    from the definitions of [SpecFloat], to which the axioms of Rocq's
    primitive floats reduce every operation. *)

Module RoundingFacts.

Import Rounding.
Local Open Scope Z_scope.


(** Powers of two are opaque atoms for linear arithmetic. *)
Ltac hide_pow :=
  repeat match goal with
  | H : context [Z.pow 2 ?e] |- _ =>
      let v := fresh "pw" in set (v := Z.pow 2 e) in *; clearbody v
  | |- context [Z.pow 2 ?e] =>
      let v := fresh "pw" in set (v := Z.pow 2 e) in *; clearbody v
  end.

Lemma pow2_pos (n : Z) : 0 <= n -> 0 < 2 ^ n.
Proof. intros. apply Z.pow_pos_nonneg; lia. Qed.

Lemma pow2_le (a b : Z) : 0 <= a <= b -> 2 ^ a <= 2 ^ b.
Proof. intros. apply Z.pow_le_mono_r; lia. Qed.

Lemma pow2_lt (a b : Z) : 0 <= a < b -> 2 ^ a < 2 ^ b.
Proof. intros. apply Z.pow_lt_mono_r; lia. Qed.

Lemma pow2_split (a b : Z) : 0 <= a -> 0 <= b -> 2 ^ (a + b) = 2 ^ a * 2 ^ b.
Proof. intros. apply Z.pow_add_r; lia. Qed.

Lemma digits2_pos_bounds (p : positive) :
  2 ^ (Zpos (digits2_pos p) - 1) <= Zpos p < 2 ^ Zpos (digits2_pos p).
Proof.
induction p as [p IH | p IH |]; cbn [digits2_pos].
- rewrite Pos2Z.inj_succ. change (Zpos p~1) with (2 * Zpos p + 1).
  replace (Z.succ (Zpos (digits2_pos p)) - 1)
    with (Z.succ (Zpos (digits2_pos p) - 1)) by lia.
  rewrite !Z.pow_succ_r by lia. hide_pow. lia.
- rewrite Pos2Z.inj_succ. change (Zpos p~0) with (2 * Zpos p).
  replace (Z.succ (Zpos (digits2_pos p)) - 1)
    with (Z.succ (Zpos (digits2_pos p) - 1)) by lia.
  rewrite !Z.pow_succ_r by lia. hide_pow. lia.
- cbn. lia.
Qed.

Lemma Zdigits2_bounds (m : Z) :
  0 < m -> 0 < Zdigits2 m /\ 2 ^ (Zdigits2 m - 1) <= m < 2 ^ Zdigits2 m.
Proof.
destruct m as [| p | p]; try lia. intros _. cbn [Zdigits2].
split; [lia | apply digits2_pos_bounds].
Qed.

Lemma Zdigits2_unique (m d : Z) :
  0 < m -> 2 ^ (d - 1) <= m < 2 ^ d -> Zdigits2 m = d.
Proof.
intros Hm Hd. destruct (Zdigits2_bounds m Hm) as [Hpos Hb].
assert (0 < d).
{ destruct (Z.lt_trichotomy d 0) as [Hn | [Hz | Hp]]; [| | exact Hp].
  - rewrite (Z.pow_neg_r 2 d) in Hd by lia. lia.
  - subst d. cbn in Hd. lia. }
destruct (Z.lt_trichotomy (Zdigits2 m) d) as [Hlt | [Heq | Hgt]];
  [| exact Heq |].
- pose proof (pow2_le (Zdigits2 m) (d - 1)). lia.
- pose proof (pow2_le d (Zdigits2 m - 1)). lia.
Qed.

Lemma Zdigits2_mono (m m' : Z) :
  0 < m <= m' -> Zdigits2 m <= Zdigits2 m'.
Proof.
intros Hm.
destruct (Zdigits2_bounds m) as [Hpos Hb]; [lia |].
destruct (Zdigits2_bounds m') as [Hpos' Hb']; [lia |].
destruct (Z_le_gt_dec (Zdigits2 m) (Zdigits2 m')) as [Hle | Hgt];
  [exact Hle |].
pose proof (pow2_le (Zdigits2 m') (Zdigits2 m - 1)). lia.
Qed.

Lemma Zdigits2_shift (m j : Z) :
  0 < m -> 0 <= j -> Zdigits2 (m * 2 ^ j) = Zdigits2 m + j.
Proof.
intros Hm Hj. destruct (Zdigits2_bounds m Hm) as [Hpos Hb].
pose proof (pow2_pos j Hj).
apply Zdigits2_unique; [nia |].
replace (Zdigits2 m + j - 1) with (Zdigits2 m - 1 + j) by lia.
rewrite !pow2_split by lia. nia.
Qed.

Lemma rnez_between (m n : Z) :
  0 <= n -> m / 2 ^ n <= rnez m n <= m / 2 ^ n + 1.
Proof.
intros Hn. unfold rnez.
destruct (2 * (m mod 2 ^ n) ?= 2 ^ n); [destruct (Z.even _) | |]; lia.
Qed.

Lemma rnez_mono (m m' n : Z) :
  0 <= n -> m <= m' -> rnez m n <= rnez m' n.
Proof.
intros Hn Hm. pose proof (pow2_pos n Hn) as HP.
pose proof (Z.div_le_mono m m' (2 ^ n) HP Hm) as Hq.
pose proof (rnez_between m n Hn). pose proof (rnez_between m' n Hn).
destruct (Z.eq_dec (m / 2 ^ n) (m' / 2 ^ n)) as [Heq | Hne]; [| lia].
assert (Hr : m mod 2 ^ n <= m' mod 2 ^ n).
{ pose proof (Z.div_mod m (2 ^ n)). pose proof (Z.div_mod m' (2 ^ n)).
  rewrite Heq in *. nia. }
unfold rnez. rewrite Heq.
destruct (Z.compare_spec (2 * (m mod 2 ^ n)) (2 ^ n)),
  (Z.compare_spec (2 * (m' mod 2 ^ n)) (2 ^ n));
  destruct (Z.even (m' / 2 ^ n)); lia.
Qed.

Lemma rnez_scale (m n j : Z) :
  0 <= n -> 0 <= j -> rnez (m * 2 ^ j) (n + j) = rnez m n.
Proof.
intros Hn Hj. pose proof (pow2_pos n Hn). pose proof (pow2_pos j Hj).
unfold rnez. rewrite pow2_split by lia.
rewrite Z.div_mul_cancel_r by lia.
rewrite Z.mul_mod_distr_r by lia.
replace (2 * (m mod 2 ^ n * 2 ^ j)) with (2 * (m mod 2 ^ n) * 2 ^ j) by ring.
destruct (Z.compare_spec (2 * (m mod 2 ^ n) * 2 ^ j) (2 ^ n * 2 ^ j)),
  (Z.compare_spec (2 * (m mod 2 ^ n)) (2 ^ n)); try reflexivity; nia.
Qed.

Lemma rnez_exact (q n : Z) : 0 <= n -> rnez (q * 2 ^ n) n = q.
Proof.
intros Hn. pose proof (pow2_pos n Hn). unfold rnez.
rewrite Z.div_mul, Z.mod_mul by lia.
destruct (Z.compare_spec (2 * 0) (2 ^ n)); lia.
Qed.

Lemma rnez_zero (m : Z) : rnez m 0 = m.
Proof. rewrite <- (rnez_exact m 0) at 2 by lia. now rewrite Z.mul_1_r. Qed.

Lemma rnez_upper (m n B : Z) : 0 <= n -> m < B * 2 ^ n -> rnez m n <= B.
Proof.
intros Hn Hm. pose proof (pow2_pos n Hn).
pose proof (rnez_between m n Hn).
assert (m / 2 ^ n < B) by (apply Z.div_lt_upper_bound; lia). lia.
Qed.

Lemma rnez_lower (m n B : Z) : 0 <= n -> B * 2 ^ n <= m -> B <= rnez m n.
Proof.
intros Hn Hm. pose proof (pow2_pos n Hn).
pose proof (rnez_between m n Hn).
assert (B <= m / 2 ^ n) by (apply Z.div_le_lower_bound; lia). lia.
Qed.


(** ** The shift-and-round of the specification *)

Lemma iter_pos_nat {A : Type} (f : A -> A) (p : positive) (x : A) :
  iter_pos f p x = Nat.iter (Pos.to_nat p) f x.
Proof.
revert x. induction p as [p IH | p IH |]; intros x; cbn [iter_pos].
- rewrite !IH, Pos2Nat.inj_xI.
  replace (2 * Pos.to_nat p)%nat with (Pos.to_nat p + Pos.to_nat p)%nat by lia.
  now rewrite Nat.iter_succ_r, Nat.iter_add.
- rewrite !IH, Pos2Nat.inj_xO.
  replace (2 * Pos.to_nat p)%nat with (Pos.to_nat p + Pos.to_nat p)%nat by lia.
  now rewrite Nat.iter_add.
- reflexivity.
Qed.

Lemma shr_1_spec (m : Z) (r s : bool) :
  0 <= m ->
  shr_1 {| shr_m := m; shr_r := r; shr_s := s |}
  = {| shr_m := m / 2; shr_r := Z.odd m; shr_s := r || s |}.
Proof.
intros Hm. rewrite <- Z.div2_div.
destruct m as [| [p | p |] | p]; try lia; reflexivity.
Qed.

(** After [k + 1] steps from an exact record. *)
Lemma shr_steps (m : Z) (k : nat) :
  0 <= m ->
  Nat.iter (S k) shr_1 {| shr_m := m; shr_r := false; shr_s := false |}
  = {| shr_m := m / 2 ^ (Z.of_nat k + 1);
       shr_r := Z.odd (m / 2 ^ Z.of_nat k);
       shr_s := negb (m mod 2 ^ Z.of_nat k =? 0) |}.
Proof.
intros Hm. induction k as [| k IH].
- cbn [Nat.iter]. rewrite shr_1_spec by lia.
  change (2 ^ Z.of_nat 0) with 1. change (2 ^ (Z.of_nat 0 + 1)) with 2.
  now rewrite Z.div_1_r, Z.mod_1_r.
- rewrite Nat.iter_succ, IH.
  assert (Hk : 0 <= Z.of_nat k) by lia.
  pose proof (pow2_pos (Z.of_nat k) Hk) as Hpow.
  rewrite shr_1_spec by (apply Z.div_pos; [lia | apply pow2_pos; lia]).
  rewrite Nat2Z.inj_succ. unfold Z.succ.
  f_equal.
  + rewrite Z.div_div by (try apply pow2_pos; lia).
    f_equal. rewrite (Z.pow_add_r 2 (Z.of_nat k + 1) 1) by lia. reflexivity.
  + rewrite (Z.pow_add_r 2 (Z.of_nat k) 1) by lia.
    change (2 ^ 1) with 2.
    rewrite Z.rem_mul_r by lia.
    pose proof (Z.mod_pos_bound m (2 ^ Z.of_nat k) Hpow) as Hb.
    rewrite Zodd_mod.
    pose proof (Z.mod_pos_bound (m / 2 ^ Z.of_nat k) 2) as Hb2.
    destruct (Z.eqb_spec (m mod 2 ^ Z.of_nat k) 0) as [Hz | Hnz];
      destruct (Z.eqb_spec ((m / 2 ^ Z.of_nat k) mod 2) 1) as [Ho | Hno];
      cbn [negb orb];
      match goal with
      | |- _ = negb (?a =? 0) => destruct (Z.eqb_spec a 0)
      end; cbn [negb]; try reflexivity; nia.
Qed.

Lemma shr_round (m e n : Z) :
  0 <= m -> 0 <= n ->
  let '(mrs, e') := shr {| shr_m := m; shr_r := false; shr_s := false |} e n in
  e' = e + n
  /\ round_nearest_even (shr_m mrs) (loc_of_shr_record mrs) = rnez m n.
Proof.
intros Hm Hn. unfold shr.
destruct n as [| p | p]; try lia.
- split; [lia |]. cbn. now rewrite rnez_zero.
- split; [reflexivity |].
  rewrite iter_pos_nat.
  destruct (Pos2Nat.is_succ p) as [k Hk]. rewrite Hk.
  rewrite shr_steps by lia.
  assert (Hp : Zpos p = Z.of_nat k + 1) by lia.
  rewrite Hp. cbn [shr_m loc_of_shr_record].
  assert (Hk0 : 0 <= Z.of_nat k) by lia.
  pose proof (pow2_pos (Z.of_nat k) Hk0) as Hpow.
  unfold rnez.
  rewrite (Z.pow_add_r 2 (Z.of_nat k) 1) by lia. change (2 ^ 1) with 2.
  rewrite Z.rem_mul_r by lia.
  pose proof (Z.mod_pos_bound m (2 ^ Z.of_nat k) Hpow) as Hb.
  pose proof (Z.mod_pos_bound (m / 2 ^ Z.of_nat k) 2) as Hb2.
  rewrite Zodd_mod.
  destruct (Z.eqb_spec (m mod 2 ^ Z.of_nat k) 0) as [Hz | Hnz];
    destruct (Z.eqb_spec ((m / 2 ^ Z.of_nat k) mod 2) 1) as [Ho | Hno];
    cbn [negb round_nearest_even];
    match goal with
    | |- _ = match ?a ?= ?b with _ => _ end =>
        destruct (Z.compare_spec a b)
    end; try reflexivity; try nia.
Qed.


(** ** Rounding a positive mantissa to binary64 *)

Lemma fexp_fexp64 (e : Z) : fexp prec emax e = fexp64 e.
Proof. reflexivity. Qed.

Lemma shr_nonpos (r : shr_record) (e n : Z) : n <= 0 -> shr r e n = (r, e).
Proof.
intros Hn. destruct n; try reflexivity. lia.
Qed.

Lemma shr_fexp_round (m e : Z) :
  0 <= m ->
  let n := Z.max (fexp64 (Zdigits2 m + e) - e) 0 in
  let '(mrs, e') := shr_fexp prec emax m e loc_Exact in
  e' = e + n
  /\ round_nearest_even (shr_m mrs) (loc_of_shr_record mrs) = rnez m n.
Proof.
intros Hm n. unfold shr_fexp. rewrite fexp_fexp64.
cbn [shr_record_of_loc].
destruct (Z.le_gt_cases (fexp64 (Zdigits2 m + e) - e) 0) as [Hle | Hgt].
- rewrite shr_nonpos by exact Hle.
  replace n with 0 by (unfold n; lia).
  split; [lia |]. cbn. now rewrite rnez_zero.
- replace n with (fexp64 (Zdigits2 m + e) - e) by (unfold n; lia).
  apply shr_round; lia.
Qed.

(** The second shift of [binary_round_aux] only acts on a carry. *)
Lemma second_shift (s : bool) (M E : Z) :
  0 <= M <= 2 ^ 53 -> -1074 <= E ->
  (let '(mrs, e) := shr_fexp prec emax M E loc_Exact in
   match shr_m mrs with
   | Z0 => S754_zero s
   | Zpos p =>
       if e <=? emax - prec then S754_finite s p e else S754_infinity s
   | Zneg _ => S754_nan
   end)
  = pack s (if M =? 2 ^ 53 then (2 ^ 52, E + 1) else (M, E)).
Proof.
intros HM HE. unfold shr_fexp. rewrite fexp_fexp64.
cbn [shr_record_of_loc].
destruct (Z.eqb_spec M (2 ^ 53)) as [Heq | Hne].
- subst M. change (Zdigits2 (2 ^ 53)) with 54.
  replace (fexp64 (54 + E) - E) with 1 by (unfold fexp64; lia).
  reflexivity.
- assert (Hlt : M < 2 ^ 53) by lia.
  assert (Hn : fexp64 (Zdigits2 M + E) - E <= 0).
  { destruct (Z.eq_dec M 0) as [-> | Hpos].
    - cbn [Zdigits2]. unfold fexp64. lia.
    - destruct (Zdigits2_bounds M) as [Hd [Hlo Hhi]]; [lia |].
      assert (Zdigits2 M <= 53).
      { destruct (Z.le_gt_cases (Zdigits2 M) 53) as [? | Hbig]; [easy |].
        assert (2 ^ 53 <= 2 ^ (Zdigits2 M - 1)) by (apply pow2_le; lia).
        lia. }
      unfold fexp64. lia. }
  rewrite shr_nonpos by exact Hn.
  unfold pack. cbn [shr_m fst snd]. reflexivity.
Qed.

Lemma rnez_nonneg (m n : Z) : 0 <= n -> 0 <= m -> 0 <= rnez m n.
Proof.
intros Hn Hm. pose proof (rnez_between m n Hn) as [Hlo _].
pose proof (pow2_pos n Hn).
assert (0 <= m / 2 ^ n) by (apply Z.div_pos; lia). lia.
Qed.

(** The mantissa before the carry is at most [2^53]. *)
Lemma round_pos_mantissa (m e : Z) :
  0 < m ->
  let E := fexp64 (Zdigits2 m + e) in
  0 <= (if E <=? e then m * 2 ^ (e - E) else rnez m (E - e)) <= 2 ^ 53.
Proof.
intros Hm E.
destruct (Zdigits2_bounds m Hm) as [Hd [Hlo Hhi]].
destruct (Z.leb_spec E e) as [Hle | Hgt].
- assert (Hpos : 0 < 2 ^ (e - E)) by (apply pow2_pos; lia).
  split; [nia |].
  assert (Hdig : Zdigits2 (m * 2 ^ (e - E)) = Zdigits2 m + (e - E))
    by (apply Zdigits2_shift; lia).
  destruct (Zdigits2_bounds (m * 2 ^ (e - E))) as [_ [_ Hhi']]; [nia |].
  rewrite Hdig in Hhi'.
  assert (2 ^ (Zdigits2 m + (e - E)) <= 2 ^ 53).
  { apply pow2_le. unfold E, fexp64 in *. lia. }
  lia.
- split; [apply rnez_nonneg; lia |].
  set (k := Z.max (Zdigits2 m - (E - e)) 0).
  assert (Hk : 2 ^ k <= 2 ^ 53).
  { apply pow2_le. unfold k, E, fexp64 in *. lia. }
  assert (Hm' : m < 2 ^ k * 2 ^ (E - e)).
  { rewrite <- pow2_split by (unfold k; lia).
    assert (2 ^ Zdigits2 m <= 2 ^ (k + (E - e)))
      by (apply pow2_le; unfold k; lia).
    lia. }
  pose proof (rnez_upper m (E - e) (2 ^ k)) as Hup.
  specialize (Hup ltac:(lia) Hm'). lia.
Qed.

Lemma fexp64_ge (e : Z) : -1074 <= fexp64 e.
Proof. unfold fexp64. lia. Qed.

(** [binary_round_aux] on an exact mantissa that needs no left shift. *)
Lemma binary_round_aux_spec (s : bool) (m : positive) (e : Z) :
  e <= fexp64 (Zpos (digits2_pos m) + e) ->
  binary_round_aux prec emax s (Zpos m) e loc_Exact
  = pack s (round_pos (Zpos m) e).
Proof.
intros He. unfold binary_round_aux.
pose proof (shr_fexp_round (Zpos m) e ltac:(lia)) as Hfirst.
cbv zeta in Hfirst.
destruct (shr_fexp prec emax (Zpos m) e loc_Exact) as [mrs e'].
destruct Hfirst as [He' Hround]. rewrite Hround.
cbn [Zdigits2] in He', Hround |- *.
set (E := fexp64 (Zpos (digits2_pos m) + e)) in *.
replace (Z.max (E - e) 0) with (E - e) in * by lia.
replace e' with E by lia.
pose proof (round_pos_mantissa (Zpos m) e ltac:(lia)) as HM.
cbv zeta in HM. cbn [Zdigits2] in HM. fold E in HM.
unfold round_pos. cbn [Zdigits2]. fold E.
destruct (Z.leb_spec E e) as [Hle | Hgt].
- assert (E = e) by lia.
  replace (E - e) with 0 in * by lia. replace (e - E) with 0 in * by lia.
  rewrite rnez_zero. change (2 ^ 0) with 1 in *. rewrite Z.mul_1_r in *.
  apply second_shift; [exact HM | apply fexp64_ge].
- apply second_shift; [exact HM | apply fexp64_ge].
Qed.

Lemma iter_xO (m d : positive) :
  Zpos (Pos.iter xO m d) = Zpos m * 2 ^ Zpos d.
Proof.
induction d as [| d IH] using Pos.peano_ind.
- cbn [Pos.iter]. change (Zpos m~0) with (2 * Zpos m).
  change (2 ^ 1) with 2. ring.
- rewrite Pos.iter_succ, Pos2Z.inj_succ, Z.pow_succ_r by lia.
  change (Zpos (Pos.iter xO m d)~0) with (2 * Zpos (Pos.iter xO m d)).
  rewrite IH. ring.
Qed.

(** [binary_round] is packing the rounded pair. *)
Lemma binary_round_spec (s : bool) (m : positive) (e : Z) :
  binary_round prec emax s m e = pack s (round_pos (Zpos m) e).
Proof.
unfold binary_round, shl_align. rewrite fexp_fexp64.
set (E := fexp64 (Zpos (digits2_pos m) + e)).
destruct (E - e) as [| d | d] eqn:Hd.
- apply binary_round_aux_spec. fold E. lia.
- apply binary_round_aux_spec. fold E. lia.
- assert (Hshift : Zpos (Pos.iter xO m d) = Zpos m * 2 ^ (e - E)).
  { rewrite iter_xO. f_equal. f_equal. lia. }
  assert (Hdig : Zpos (digits2_pos (Pos.iter xO m d))
                 = Zpos (digits2_pos m) + (e - E)).
  { change (Zdigits2 (Zpos (Pos.iter xO m d)) = Zdigits2 (Zpos m) + (e - E)).
    rewrite Hshift. apply Zdigits2_shift; lia. }
  rewrite binary_round_aux_spec.
  + unfold round_pos. cbn [Zdigits2]. rewrite Hdig.
    replace (Zpos (digits2_pos m) + (e - E) + E)
      with (Zpos (digits2_pos m) + e) by lia.
    fold E. rewrite Z.leb_refl, Z.sub_diag.
    change (2 ^ 0) with 1. rewrite Z.mul_1_r.
    replace (E <=? e) with true by (symmetry; apply Z.leb_le; lia).
    now rewrite Hshift.
  + rewrite Hdig.
    replace (Zpos (digits2_pos m) + (e - E) + E)
      with (Zpos (digits2_pos m) + e) by lia.
    fold E. lia.
Qed.


(** ** Rounding is monotone *)

Lemma round_pos_lower (m e : Z) :
  0 < m ->
  let E := fexp64 (Zdigits2 m + e) in
  -1074 < E ->
  2 ^ 52 <= (if E <=? e then m * 2 ^ (e - E) else rnez m (E - e)).
Proof.
intros Hm E HE.
destruct (Zdigits2_bounds m Hm) as [Hd [Hlo Hhi]].
assert (HEeq : E = Zdigits2 m + e - 53) by (unfold E, fexp64 in *; lia).
destruct (Z.leb_spec E e) as [Hle | Hgt].
- assert (Hsplit : 2 ^ 52 = 2 ^ (Zdigits2 m - 1) * 2 ^ (e - E)).
  { rewrite <- pow2_split by lia. f_equal. lia. }
  rewrite Hsplit.
  assert (0 < 2 ^ (e - E)) by (apply pow2_pos; lia).
  nia.
- apply rnez_lower; [lia |].
  rewrite <- pow2_split by lia.
  replace (52 + (E - e)) with (Zdigits2 m - 1) by lia. exact Hlo.
Qed.

Lemma fexp64_mono (a b : Z) : a <= b -> fexp64 a <= fexp64 b.
Proof. unfold fexp64. lia. Qed.

Lemma round_pos_mono (m m' e : Z) :
  0 < m <= m' -> lexle (round_pos m e) (round_pos m' e).
Proof.
intros Hm.
pose proof (Zdigits2_mono m m' Hm) as Hdig.
pose proof (round_pos_mantissa m e ltac:(lia)) as HM.
pose proof (round_pos_mantissa m' e ltac:(lia)) as HM'.
pose proof (round_pos_lower m e ltac:(lia)) as HL.
pose proof (round_pos_lower m' e ltac:(lia)) as HL'.
cbv zeta in HM, HM', HL, HL'.
unfold round_pos, lexle.
set (E := fexp64 (Zdigits2 m + e)) in *.
set (E' := fexp64 (Zdigits2 m' + e)) in *.
assert (HE : E <= E') by (apply fexp64_mono; lia).
pose proof (fexp64_ge (Zdigits2 m + e)) as Hmin. fold E in Hmin.
assert (Hsame : E = E' ->
          (if E <=? e then m * 2 ^ (e - E) else rnez m (E - e))
          <= (if E' <=? e then m' * 2 ^ (e - E') else rnez m' (E' - e))).
{ intros <-. destruct (Z.leb_spec E e).
  - assert (0 < 2 ^ (e - E)) by (apply pow2_pos; lia). nia.
  - apply rnez_mono; lia. }
set (M1 := if E <=? e then m * 2 ^ (e - E) else rnez m (E - e)) in *.
set (M1' := if E' <=? e then m' * 2 ^ (e - E') else rnez m' (E' - e)) in *.
clearbody M1 M1' E E'.
change (2 ^ 52) with 4503599627370496 in *.
change (2 ^ 53) with 9007199254740992 in *.
destruct (Z.eqb_spec M1 9007199254740992),
         (Z.eqb_spec M1' 9007199254740992); cbn [fst snd];
  destruct (Z.eq_dec E E') as [Heq | Hne];
  try (specialize (Hsame Heq)); lia.
Qed.

Lemma round_pos_scale (m e j : Z) :
  0 < m -> 0 <= j -> round_pos (m * 2 ^ j) (e - j) = round_pos m e.
Proof.
intros Hm Hj. unfold round_pos.
rewrite Zdigits2_shift by lia.
replace (Zdigits2 m + j + (e - j)) with (Zdigits2 m + e) by lia.
set (E := fexp64 (Zdigits2 m + e)).
assert (HM : (if E <=? e - j then m * 2 ^ j * 2 ^ (e - j - E)
              else rnez (m * 2 ^ j) (E - (e - j)))
             = (if E <=? e then m * 2 ^ (e - E) else rnez m (E - e))).
{ destruct (Z.leb_spec E (e - j)) as [H1 | H1],
           (Z.leb_spec E e) as [H2 | H2]; try lia.
  - rewrite <- Z.mul_assoc, <- pow2_split by lia. f_equal. f_equal. lia.
  - replace (2 ^ j) with (2 ^ (e - E) * 2 ^ (E - (e - j)))
      by (rewrite <- pow2_split by lia; f_equal; lia).
    rewrite Z.mul_assoc. apply rnez_exact. lia.
  - replace (E - (e - j)) with (E - e + j) by lia.
    apply rnez_scale; lia. }
rewrite HM. reflexivity.
Qed.

Lemma round_pos_canonical (m e : Z) :
  0 < m -> fexp64 (Zdigits2 m + e) = e -> round_pos m e = (m, e).
Proof.
intros Hm He. unfold round_pos. rewrite He, Z.leb_refl, Z.sub_diag.
change (2 ^ 0) with 1. rewrite Z.mul_1_r.
destruct (Zdigits2_bounds m Hm) as [Hd [Hlo Hhi]].
assert (Zdigits2 m <= 53) by (unfold fexp64 in He; lia).
assert (2 ^ Zdigits2 m <= 2 ^ 53) by (apply pow2_le; lia).
destruct (Z.eqb_spec m (2 ^ 53)); [lia | reflexivity].
Qed.

Lemma round_pos_nonneg (m e : Z) : 0 < m -> 0 <= fst (round_pos m e).
Proof.
intros Hm. pose proof (round_pos_mantissa m e Hm) as HM. cbv zeta in HM.
unfold round_pos.
destruct (Z.eqb_spec
            (if fexp64 (Zdigits2 m + e) <=? e
             then m * 2 ^ (e - fexp64 (Zdigits2 m + e))
             else rnez m (fexp64 (Zdigits2 m + e) - e)) (2 ^ 53));
  cbn [fst]; lia.
Qed.

(** ** The order of the packed results *)

Lemma SFleb_nonpos_nonneg (X Y : spec_float) :
  nonpos X -> nonneg Y -> SFleb X Y = true.
Proof.
destruct X as [[] | [] | | [] ? ?], Y as [[] | [] | | [] ? ?];
  cbn; intros; try reflexivity; contradiction.
Qed.

Lemma pack_nonpos (r : Z * Z) : 0 <= fst r -> nonpos (pack true r).
Proof.
destruct r as [[| p | p] E]; unfold pack; cbn [fst snd]; intros; try lia.
- exact I.
- destruct (E <=? 971); exact I.
Qed.

Lemma pack_nonneg (r : Z * Z) : 0 <= fst r -> nonneg (pack false r).
Proof.
destruct r as [[| p | p] E]; unfold pack; cbn [fst snd]; intros; try lia.
- exact I.
- destruct (E <=? 971); exact I.
Qed.

Lemma pack_le (r r' : Z * Z) :
  lexle r r' ->
  SFleb (pack false r) (pack false r') = true
  /\ SFleb (pack true r') (pack true r) = true.
Proof.
destruct r as [A E], r' as [A' E']. unfold lexle, pack. cbn [fst snd].
intros [[-> HA'] | (HA & HA' & Hord)].
- destruct A' as [| p | p]; try lia; [split; reflexivity |].
  destruct (E' <=? 971); split; reflexivity.
- destruct A as [| p | p], A' as [| p' | p']; try lia.
  destruct (Z.leb_spec E 971), (Z.leb_spec E' 971);
    unfold SFleb, SFcompare; try (split; reflexivity); try lia.
  change (Pos.compare_cont Eq p p') with (Pos.compare p p').
  change (Pos.compare_cont Eq p' p) with (Pos.compare p' p).
  destruct (Z.compare_spec E E'), (Z.compare_spec E' E); try lia;
    try (split; reflexivity).
  destruct (Pos.compare_spec p p'), (Pos.compare_spec p' p);
    try (split; reflexivity); lia.
Qed.

(** ** Rounding a signed integer: [binary_normalize] *)

Lemma B_spec (v e : Z) :
  B v e = if v =? 0 then S754_zero false
          else pack (v <? 0) (round_pos (Z.abs v) e).
Proof.
unfold B, binary_normalize.
destruct v as [| p | p]; [reflexivity | |]; apply binary_round_spec.
Qed.

Lemma B_spec_pos (s : bool) (p : positive) (e : Z) :
  B (signed s p) e = pack s (round_pos (Zpos p) e).
Proof.
rewrite B_spec. now destruct s.
Qed.

Lemma B_mono (v v' e : Z) : v <= v' -> SFleb (B v e) (B v' e) = true.
Proof.
intros Hv. rewrite !B_spec.
destruct (Z.eqb_spec v 0) as [-> | Hv0], (Z.eqb_spec v' 0) as [-> | Hv0'].
- reflexivity.
- replace (v' <? 0) with false by (symmetry; apply Z.ltb_ge; lia).
  apply SFleb_nonpos_nonneg; [exact I |].
  apply pack_nonneg, round_pos_nonneg. lia.
- replace (v <? 0) with true by (symmetry; apply Z.ltb_lt; lia).
  apply SFleb_nonpos_nonneg; [| exact I].
  apply pack_nonpos, round_pos_nonneg. lia.
- destruct (Z.ltb_spec v 0), (Z.ltb_spec v' 0); try lia.
  + apply pack_le, round_pos_mono. lia.
  + apply SFleb_nonpos_nonneg;
      [apply pack_nonpos | apply pack_nonneg]; apply round_pos_nonneg; lia.
  + apply pack_le, round_pos_mono. lia.
Qed.

Lemma B_scale (v e j : Z) : 0 <= j -> B (v * 2 ^ j) (e - j) = B v e.
Proof.
intros Hj. rewrite !B_spec.
pose proof (pow2_pos j Hj) as Hpow.
destruct (Z.eqb_spec v 0) as [-> | Hv0].
- reflexivity.
- replace (v * 2 ^ j =? 0) with false by (symmetry; apply Z.eqb_neq; nia).
  replace (v * 2 ^ j <? 0) with (v <? 0)
    by (destruct (Z.ltb_spec v 0), (Z.ltb_spec (v * 2 ^ j) 0);
        try reflexivity; nia).
  rewrite Z.abs_mul, (Z.abs_eq (2 ^ j)) by lia.
  rewrite round_pos_scale by lia. reflexivity.
Qed.

Lemma B_nonnan (v e : Z) : SFleb (B v e) (B v e) = true.
Proof. apply B_mono. lia. Qed.


(** ** The value of a finite float, in units of [2^-1074] *)

Lemma SFleb_trans (x y z : spec_float) :
  SFleb x y = true -> SFleb y z = true -> SFleb x z = true.
Proof.
unfold SFleb.
destruct x as [[] | [] | | [] mx ex], y as [[] | [] | | [] my ey],
  z as [[] | [] | | [] mz ez]; cbn; try congruence; compare_cases.
Qed.

Lemma SFleb_antisym_ev (X Y : spec_float) :
  fin X = true -> fin Y = true ->
  SFleb X Y = true -> SFleb Y X = true -> ev X = ev Y.
Proof.
unfold SFleb.
destruct X as [[] | [] | | [] mx ex], Y as [[] | [] | | [] my ey];
  cbn; try congruence; intros _ _; compare_cases; intros; subst;
  reflexivity.
Qed.

Lemma valid_finite (s : bool) (m : positive) (e : Z) :
  valid_binary (S754_finite s m e) = true ->
  fexp64 (Zdigits2 (Zpos m) + e) = e /\ -1074 <= e <= 971.
Proof.
cbn [SpecFloat.valid_binary]. unfold bounded, canonical_mantissa.
rewrite fexp_fexp64. intros H. apply andb_prop in H as [Hc Hb].
apply Z.eqb_eq in Hc. apply Z.leb_le in Hb. cbn [Zdigits2].
change (emax - prec) with 971 in Hb.
split; [exact Hc |]. split; [| exact Hb].
rewrite <- Hc. apply fexp64_ge.
Qed.

Lemma B_finite (s : bool) (m : positive) (e : Z) :
  valid_binary (S754_finite s m e) = true ->
  B (signed s m) e = S754_finite s m e.
Proof.
intros Hv. apply valid_finite in Hv as [Hc [_ Hb]].
rewrite B_spec.
replace (signed s m =? 0) with false by (now destruct s).
replace (signed s m <? 0) with s by (now destruct s).
replace (Z.abs (signed s m)) with (Zpos m) by (now destruct s).
rewrite round_pos_canonical by (lia || exact Hc).
unfold pack. cbn [fst snd].
now replace (e <=? 971) with true by (symmetry; apply Z.leb_le; lia).
Qed.

Lemma B_ev_finite (s : bool) (m : positive) (e : Z) :
  valid_binary (S754_finite s m e) = true ->
  B (signed s m * 2 ^ (e + 1074)) (-1074) = S754_finite s m e.
Proof.
intros Hv. pose proof (valid_finite s m e Hv) as [_ [He _]].
transitivity (B (signed s m) e); [| now apply B_finite].
rewrite <- (B_scale (signed s m) e (e + 1074)) by lia.
f_equal. lia.
Qed.

Lemma B_ev (X : spec_float) :
  valid_binary X = true -> fin X = true ->
  same X (B (ev X) (-1074)).
Proof.
intros Hv Hf. destruct X as [s | s | | s m e]; try discriminate.
- cbn [ev]. rewrite B_spec. cbn. destruct s; split; reflexivity.
- cbn [ev]. rewrite B_ev_finite by exact Hv.
  rewrite <- (B_finite s m e Hv). split; apply B_nonnan.
Qed.

Lemma ev_le_SFleb (X Y : spec_float) :
  valid_binary X = true -> valid_binary Y = true ->
  fin X = true -> fin Y = true ->
  ev X <= ev Y -> SFleb X Y = true.
Proof.
intros HvX HvY HfX HfY Hle.
destruct (B_ev X HvX HfX) as [HX _], (B_ev Y HvY HfY) as [_ HY].
eapply SFleb_trans; [exact HX |].
eapply SFleb_trans; [| exact HY].
now apply B_mono.
Qed.

Lemma SFleb_ev_le (X Y : spec_float) :
  valid_binary X = true -> valid_binary Y = true ->
  fin X = true -> fin Y = true ->
  SFleb X Y = true -> ev X <= ev Y.
Proof.
intros HvX HvY HfX HfY Hle.
destruct (Z.le_gt_cases (ev X) (ev Y)) as [? | Hgt]; [assumption |].
assert (Hrev : SFleb Y X = true) by (apply ev_le_SFleb; try assumption; lia).
pose proof (SFleb_antisym_ev X Y HfX HfY Hle Hrev). lia.
Qed.

Lemma SFltb_ev_lt (X Y : spec_float) :
  valid_binary X = true -> valid_binary Y = true ->
  fin X = true -> fin Y = true ->
  SFltb X Y = true -> ev X < ev Y.
Proof.
intros HvX HvY HfX HfY Hlt.
destruct (Z.lt_ge_cases (ev X) (ev Y)) as [? | Hge]; [assumption |].
assert (Hrev : SFleb Y X = true) by (apply ev_le_SFleb; try assumption; lia).
apply Binary64.SFleb_not_gt in Hrev. congruence.
Qed.


(** ** Addition, subtraction and multiplication by a constant *)

Lemma signed_sgn (s : bool) (m : positive) : signed s m = sgn s * Zpos m.
Proof. now destruct s. Qed.

Lemma cond_Zopp_sgn (s : bool) (z : Z) : cond_Zopp s z = sgn s * z.
Proof. destruct s; unfold cond_Zopp, sgn; lia. Qed.

Lemma shl_align_fst (mx : positive) (ex ez : Z) :
  ez <= ex -> Zpos (fst (shl_align mx ex ez)) = Zpos mx * 2 ^ (ex - ez).
Proof.
intros Hle. unfold shl_align.
destruct (ez - ex) as [| d | d] eqn:Hd; cbn [fst]; try lia.
- replace (ex - ez) with 0 by lia. change (2 ^ 0) with 1. lia.
- rewrite iter_xO. f_equal. f_equal. lia.
Qed.

Lemma same_refl (X : spec_float) : SFleb X X = true -> same X X.
Proof. now split. Qed.

Lemma SFadd_fin (X C : spec_float) :
  valid_binary X = true -> valid_binary C = true ->
  fin X = true -> fin C = true ->
  same (SFadd prec emax X C) (B (ev X + ev C) (-1074)).
Proof.
intros HvX HvC HfX HfC.
destruct X as [sx | sx | | sx mx ex]; try discriminate;
  destruct C as [sc | sc | | sc mc ec]; try discriminate.
- cbn [ev]. rewrite B_spec. destruct sx, sc; split; reflexivity.
- cbn [SFadd]. change (ev (S754_zero sx)) with 0. rewrite Z.add_0_l.
  now apply B_ev.
- cbn [SFadd]. change (ev (S754_zero sc)) with 0. rewrite Z.add_0_r.
  now apply B_ev.
- pose proof (valid_finite sx mx ex HvX) as [_ [Hex _]].
  pose proof (valid_finite sc mc ec HvC) as [_ [Hec _]].
  unfold SFadd. cbv zeta.
  set (ez := Z.min ex ec).
  change (binary_normalize prec emax ?v ez false) with (B v ez).
  rewrite !cond_Zopp_sgn, !shl_align_fst by (unfold ez; lia).
  assert (Heq : ev (S754_finite sx mx ex) + ev (S754_finite sc mc ec)
                = (sgn sx * (Zpos mx * 2 ^ (ex - ez))
                   + sgn sc * (Zpos mc * 2 ^ (ec - ez))) * 2 ^ (ez + 1074)).
  { cbn [ev]. rewrite !signed_sgn.
    replace (2 ^ (ex + 1074)) with (2 ^ (ex - ez) * 2 ^ (ez + 1074))
      by (rewrite <- pow2_split by (unfold ez; lia); f_equal; lia).
    replace (2 ^ (ec + 1074)) with (2 ^ (ec - ez) * 2 ^ (ez + 1074))
      by (rewrite <- pow2_split by (unfold ez; lia); f_equal; lia).
    ring. }
  rewrite Heq.
  replace (-1074) with (ez - (ez + 1074)) by lia.
  rewrite B_scale by (unfold ez; lia).
  apply same_refl, B_nonnan.
Qed.

Lemma SFsub_SFadd (X Y : spec_float) :
  SFsub prec emax X Y = SFadd prec emax X (SFopp Y).
Proof.
destruct X as [[] | [] | | [] mx ex], Y as [[] | [] | | [] my ey];
  reflexivity.
Qed.

Lemma SFadd_comm (X Y : spec_float) :
  SFadd prec emax X Y = SFadd prec emax Y X.
Proof.
destruct X as [[] | [] | | sx mx ex], Y as [[] | [] | | sy my ey];
  try reflexivity.
unfold SFadd. now rewrite Z.min_comm, Z.add_comm.
Qed.

Lemma SFopp_valid (X : spec_float) :
  valid_binary X = true -> valid_binary (SFopp X) = true.
Proof. now destruct X. Qed.

Lemma SFopp_fin (X : spec_float) : fin (SFopp X) = fin X.
Proof. now destruct X. Qed.

Lemma SFopp_anti (X Y : spec_float) :
  SFleb X Y = true -> SFleb (SFopp Y) (SFopp X) = true.
Proof.
unfold SFleb.
destruct X as [[] | [] | | [] mx ex], Y as [[] | [] | | [] my ey];
  cbn; try congruence; compare_cases.
Qed.

Lemma SFadd_inf_l (s : bool) (C : spec_float) :
  fin C = true -> SFadd prec emax (S754_infinity s) C = S754_infinity s.
Proof. now destruct C. Qed.

Lemma SFleb_top (Z W : spec_float) :
  SFleb Z W = true -> SFleb Z (S754_infinity false) = true.
Proof.
destruct Z as [[] | [] | | [] ? ?], W as [[] | [] | | [] ? ?];
  cbn; congruence.
Qed.

Lemma SFleb_bot (Z W : spec_float) :
  SFleb W Z = true -> SFleb (S754_infinity true) Z = true.
Proof.
destruct Z as [[] | [] | | [] ? ?], W as [[] | [] | | [] ? ?];
  cbn; congruence.
Qed.

Lemma SFleb_refl_l (X Y : spec_float) : SFleb X Y = true -> SFleb X X = true.
Proof.
unfold SFleb.
destruct X as [[] | [] | | [] mx ex], Y as [[] | [] | | [] my ey];
  cbn; try congruence; intros _; compare_cases.
Qed.

Lemma SFleb_refl_r (X Y : spec_float) : SFleb X Y = true -> SFleb Y Y = true.
Proof.
unfold SFleb.
destruct X as [[] | [] | | [] mx ex], Y as [[] | [] | | [] my ey];
  cbn; try congruence; intros _; compare_cases.
Qed.

(** Among non-NaN values, the ones that are not finite. *)
Lemma not_fin_cases (X Y : spec_float) :
  SFleb X Y = true -> fin X = false ->
  X = S754_infinity true \/ (X = S754_infinity false /\ Y = S754_infinity false).
Proof.
destruct X as [[] | [] | | [] mx ex], Y as [[] | [] | | [] my ey];
  cbn; try congruence; auto.
Qed.

Lemma not_fin_above (X Y : spec_float) :
  SFleb X Y = true -> fin X = true -> fin Y = false ->
  Y = S754_infinity false.
Proof.
destruct X as [[] | [] | | [] mx ex], Y as [[] | [] | | [] my ey];
  cbn; congruence.
Qed.

Lemma SFadd_mono_l (X Y C : spec_float) :
  valid_binary X = true -> valid_binary Y = true ->
  valid_binary C = true -> fin C = true ->
  SFleb X Y = true ->
  SFleb (SFadd prec emax X C) (SFadd prec emax Y C) = true.
Proof.
intros HvX HvY HvC HfC Hle.
destruct (fin X) eqn:HfX.
- pose proof (SFadd_fin X C HvX HvC HfX HfC) as [HX HX'].
  destruct (fin Y) eqn:HfY.
  + pose proof (SFadd_fin Y C HvY HvC HfY HfC) as [HY HY'].
    eapply SFleb_trans; [exact HX |].
    eapply SFleb_trans; [| exact HY'].
    apply B_mono.
    pose proof (SFleb_ev_le X Y HvX HvY HfX HfY Hle). lia.
  + rewrite (not_fin_above X Y Hle HfX HfY), SFadd_inf_l by exact HfC.
    eapply SFleb_top; exact HX.
- destruct (not_fin_cases X Y Hle HfX) as [-> | [-> ->]].
  + rewrite SFadd_inf_l by exact HfC.
    destruct (fin Y) eqn:HfY.
    * pose proof (SFadd_fin Y C HvY HvC HfY HfC) as [HY HY'].
      eapply SFleb_bot; exact HY'.
    * destruct Y as [[] | [] | | [] my ey]; try discriminate;
        rewrite SFadd_inf_l by exact HfC; reflexivity.
  + rewrite SFadd_inf_l by exact HfC. reflexivity.
Qed.

Lemma SFadd_mono_r (X C D : spec_float) :
  valid_binary X = true -> valid_binary C = true ->
  valid_binary D = true -> fin C = true -> fin D = true ->
  SFleb X X = true -> SFleb C D = true ->
  SFleb (SFadd prec emax X C) (SFadd prec emax X D) = true.
Proof.
intros HvX HvC HvD HfC HfD HX Hle.
destruct (fin X) eqn:HfX.
- rewrite (SFadd_comm X C), (SFadd_comm X D). now apply SFadd_mono_l.
- destruct X as [[] | [] | | [] mx ex]; try discriminate;
    rewrite !SFadd_inf_l by assumption; reflexivity.
Qed.

Lemma SFsub_mono_l (X Y C : spec_float) :
  valid_binary X = true -> valid_binary Y = true ->
  valid_binary C = true -> fin C = true ->
  SFleb X Y = true ->
  SFleb (SFsub prec emax X C) (SFsub prec emax Y C) = true.
Proof.
intros HvX HvY HvC HfC Hle. rewrite !SFsub_SFadd.
apply SFadd_mono_l; try assumption.
- now apply SFopp_valid.
- now rewrite SFopp_fin.
Qed.

Lemma SFsub_anti_r (X C D : spec_float) :
  valid_binary X = true -> valid_binary C = true ->
  valid_binary D = true -> fin C = true -> fin D = true ->
  SFleb X X = true -> SFleb C D = true ->
  SFleb (SFsub prec emax X D) (SFsub prec emax X C) = true.
Proof.
intros HvX HvC HvD HfC HfD HX Hle. rewrite !SFsub_SFadd.
apply SFadd_mono_r; try assumption; try (now apply SFopp_valid);
  try (now rewrite SFopp_fin).
now apply SFopp_anti.
Qed.

Lemma SFsub_zero (X : spec_float) :
  SFsub prec emax X (S754_zero false) = X.
Proof. now destruct X as [[] | [] | | [] mx ex]. Qed.

(** Multiplication by a positive normal constant. *)
Lemma SFmul_fin (X : spec_float) (mc : positive) (ec : Z) :
  valid_binary X = true -> fin X = true ->
  Zdigits2 (Zpos mc) = 53 ->
  same (SFmul prec emax X (S754_finite false mc ec))
       (B (ev X * Zpos mc) (ec - 1074)).
Proof.
intros HvX HfX Hmc.
destruct X as [sx | sx | | sx mx ex]; try discriminate.
- cbn [ev SFmul]. rewrite B_spec. destruct sx; split; reflexivity.
- pose proof (valid_finite sx mx ex HvX) as [_ [Hex _]].
  cbn [SFmul ev]. rewrite xorb_false_r.
  assert (Hdig : 53 <= Zdigits2 (Zpos (mx * mc))).
  { rewrite <- Hmc. apply Zdigits2_mono. nia. }
  rewrite binary_round_aux_spec
    by (cbn [Zdigits2] in Hdig; unfold fexp64; lia).
  replace (signed sx mx * 2 ^ (ex + 1074) * Zpos mc)
    with (signed sx mx * Zpos mc * 2 ^ (ex + 1074)) by ring.
  replace (ec - 1074) with (ex + ec - (ex + 1074)) by lia.
  rewrite B_scale by lia. rewrite B_spec.
  replace (signed sx mx * Zpos mc =? 0) with false by (now destruct sx).
  replace (signed sx mx * Zpos mc <? 0) with sx by (now destruct sx).
  replace (Z.abs (signed sx mx * Zpos mc)) with (Zpos (mx * mc))
    by (now destruct sx).
  rewrite <- (B_spec_pos sx (mx * mc) (ex + ec)).
  apply same_refl, B_nonnan.
Qed.


Lemma SFmul_mono (X Y : spec_float) (mc : positive) (ec : Z) :
  valid_binary X = true -> valid_binary Y = true ->
  Zdigits2 (Zpos mc) = 53 ->
  SFleb X Y = true ->
  SFleb (SFmul prec emax X (S754_finite false mc ec))
        (SFmul prec emax Y (S754_finite false mc ec)) = true.
Proof.
intros HvX HvY Hmc Hle.
destruct (fin X) eqn:HfX.
- pose proof (SFmul_fin X mc ec HvX HfX Hmc) as [HX HX'].
  destruct (fin Y) eqn:HfY.
  + pose proof (SFmul_fin Y mc ec HvY HfY Hmc) as [HY HY'].
    eapply SFleb_trans; [exact HX |].
    eapply SFleb_trans; [| exact HY'].
    apply B_mono.
    pose proof (SFleb_ev_le X Y HvX HvY HfX HfY Hle). nia.
  + rewrite (not_fin_above X Y Hle HfX HfY). cbn [SFmul xorb].
    eapply SFleb_top; exact HX.
- destruct (not_fin_cases X Y Hle HfX) as [-> | [-> ->]].
  + cbn [SFmul xorb].
    destruct (fin Y) eqn:HfY.
    * pose proof (SFmul_fin Y mc ec HvY HfY Hmc) as [HY HY'].
      eapply SFleb_bot; exact HY'.
    * destruct Y as [[] | [] | | [] my ey]; try discriminate; reflexivity.
  + reflexivity.
Qed.

(** ** Finite values lie between the two largest ones *)

Lemma ev_bound (X : spec_float) :
  valid_binary X = true -> fin X = true ->
  - ev MAX_VALUE <= ev X <= ev MAX_VALUE.
Proof.
intros Hv Hf. destruct X as [s | s | | s m e]; try discriminate.
- cbn. lia.
- pose proof (valid_finite s m e Hv) as [Hc [Hlo Hhi]].
  destruct (Zdigits2_bounds (Zpos m)) as [Hd [_ Hm]]; [lia |].
  assert (Hdig : Zdigits2 (Zpos m) <= 53) by (unfold fexp64 in Hc; lia).
  assert (Hpow : 2 ^ Zdigits2 (Zpos m) <= 2 ^ 53) by (apply pow2_le; lia).
  assert (Hexp : 2 ^ (e + 1074) <= 2 ^ (971 + 1074)) by (apply pow2_le; lia).
  assert (Hpos : 0 < 2 ^ (e + 1074)) by (apply pow2_pos; lia).
  unfold MAX_VALUE. cbn [ev signed].
  change (2 ^ 53) with 9007199254740992 in Hpow.
  set (P := 2 ^ (e + 1074)) in *. set (Q := 2 ^ (971 + 1074)) in *.
  clearbody P Q. destruct s; cbn [signed].
  + change (Zneg m) with (- Zpos m). nia.
  + nia.
Qed.

Lemma fin_below_MAX_VALUE (X : spec_float) :
  valid_binary X = true -> fin X = true ->
  SFleb (SFopp MAX_VALUE) X = true /\ SFleb X MAX_VALUE = true.
Proof.
intros Hv Hf. pose proof (ev_bound X Hv Hf) as [Hlo Hhi].
split; apply ev_le_SFleb; try assumption; reflexivity.
Qed.

Lemma fin_between (L X U : spec_float) :
  SFleb L X = true -> SFleb X U = true ->
  fin L = true -> fin U = true -> fin X = true.
Proof.
destruct X as [[] | [] | | [] mx ex], L as [[] | [] | | [] ml el],
  U as [[] | [] | | [] mu eu]; cbn; congruence.
Qed.

(** Subtracting a non-negative value from a value that is not [+infinity]
    does not increase it. *)
Lemma SFsub_le_self (X C : spec_float) :
  valid_binary X = true -> valid_binary C = true ->
  SFleb X MAX_VALUE = true -> SFleb (S754_zero false) C = true ->
  SFleb (SFsub prec emax X C) X = true.
Proof.
intros HvX HvC HX HC.
destruct (fin C) eqn:HfC.
- rewrite <- (SFsub_zero X) at 2.
  apply SFsub_anti_r; try assumption; try reflexivity.
  eapply SFleb_refl_l; exact HX.
- destruct C as [[] | [] | | [] mc ec]; try discriminate.
  destruct X as [[] | [] | | [] mx ex]; try discriminate; reflexivity.
Qed.

(** Adding a non-negative finite value does not decrease a value. *)
Lemma SFadd_ge_self (X C : spec_float) :
  valid_binary X = true -> valid_binary C = true -> fin C = true ->
  SFleb X X = true -> SFleb (S754_zero false) C = true ->
  SFleb X (SFadd prec emax X C) = true.
Proof.
intros HvX HvC HfC HX HC.
replace X with (SFadd prec emax X (S754_zero true)) at 1
  by (now destruct X as [[] | [] | | [] mx ex]).
apply SFadd_mono_r; try assumption; reflexivity.
Qed.


Lemma valid_mantissa (s : bool) (m : positive) (e : Z) :
  valid_binary (S754_finite s m e) = true -> Zpos m < 2 ^ 53.
Proof.
intros Hv. pose proof (valid_finite s m e Hv) as [Hc _].
destruct (Zdigits2_bounds (Zpos m)) as [Hd [_ Hm]]; [lia |].
assert (Hdig : Zdigits2 (Zpos m) <= 53) by (unfold fexp64 in Hc; lia).
assert (Hpow : 2 ^ Zdigits2 (Zpos m) <= 2 ^ 53) by (apply pow2_le; lia).
lia.
Qed.


(** A small integer is rounded exactly. *)
Lemma round_pos_small (m : Z) :
  0 < m < 2 ^ 53 ->
  exists E : Z, -52 <= E <= 0 /\ round_pos m 0 = (m * 2 ^ (- E), E).
Proof.
intros Hm.
destruct (Zdigits2_bounds m) as [Hd [Hlo Hhi]]; [lia |].
assert (Hdig : Zdigits2 m <= 53).
{ destruct (Z.le_gt_cases (Zdigits2 m) 53) as [? | Hbig]; [easy |].
  assert (2 ^ 53 <= 2 ^ (Zdigits2 m - 1)) by (apply pow2_le; lia).
  lia. }
exists (Zdigits2 m - 53). split; [lia |].
unfold round_pos. rewrite Z.add_0_r.
replace (fexp64 (Zdigits2 m)) with (Zdigits2 m - 53) by (unfold fexp64; lia).
replace (Zdigits2 m - 53 <=? 0) with true by (symmetry; apply Z.leb_le; lia).
replace (0 - (Zdigits2 m - 53)) with (- (Zdigits2 m - 53)) by lia.
destruct (Zdigits2_bounds (m * 2 ^ (- (Zdigits2 m - 53)))) as [_ [_ Hhi']].
{ pose proof (pow2_pos (- (Zdigits2 m - 53)) ltac:(lia)). nia. }
rewrite Zdigits2_shift in Hhi' by lia.
replace (Zdigits2 m + - (Zdigits2 m - 53)) with 53 in Hhi' by lia.
destruct (Z.eqb_spec (m * 2 ^ (- (Zdigits2 m - 53))) (2 ^ 53));
  [lia | reflexivity].
Qed.

Lemma B_small (r : Z) :
  r <> 0 -> - 2 ^ 53 < r < 2 ^ 53 ->
  exists (p : positive) (E : Z),
    B r 0 = S754_finite (r <? 0) p E /\ E <= 0
    /\ signed (r <? 0) p = r * 2 ^ (- E).
Proof.
intros Hr0 Hr. rewrite B_spec.
replace (r =? 0) with false by (symmetry; apply Z.eqb_neq; lia).
destruct (round_pos_small (Z.abs r)) as (E & HE & ->); [lia |].
pose proof (pow2_pos (- E) ltac:(lia)) as Hpow.
destruct (Z.abs r * 2 ^ (- E)) as [| p | p] eqn:Hp; try nia.
exists p, E. unfold pack. cbn [fst snd].
replace (E <=? 971) with true by (symmetry; apply Z.leb_le; lia).
split; [reflexivity |]. split; [lia |].
destruct (Z.ltb_spec r 0); cbn [signed].
- change (Zneg p) with (- Zpos p). rewrite <- Hp. lia.
- rewrite <- Hp. lia.
Qed.

Lemma SFmul_mono_const (X Y C : spec_float) :
  valid_binary X = true -> valid_binary Y = true ->
  pos_normal C = true ->
  SFleb X Y = true ->
  SFleb (SFmul prec emax X C) (SFmul prec emax Y C) = true.
Proof.
intros HvX HvY HC Hle.
destruct C as [sc | sc | | [] mc ec]; try discriminate.
apply SFmul_mono; try assumption. now apply Z.eqb_eq.
Qed.

Lemma fin_SFleb_refl (X : spec_float) :
  valid_binary X = true -> fin X = true -> SFleb X X = true.
Proof.
intros Hv Hf. destruct (B_ev X Hv Hf) as [H _].
eapply SFleb_refl_l; exact H.
Qed.


Lemma pack_opp (s : bool) (r : Z * Z) : pack (negb s) r = SFopp (pack s r).
Proof.
destruct r as [[| p | p] E]; unfold pack; cbn [fst snd]; try reflexivity.
now destruct (E <=? 971).
Qed.

Lemma B_opp (v e : Z) : v <> 0 -> B (- v) e = SFopp (B v e).
Proof.
intros Hv. rewrite !B_spec.
replace (- v =? 0) with false by (symmetry; apply Z.eqb_neq; lia).
replace (v =? 0) with false by (symmetry; apply Z.eqb_neq; lia).
rewrite Z.abs_opp, <- pack_opp. f_equal.
destruct (Z.ltb_spec v 0), (Z.ltb_spec (- v) 0); try reflexivity; lia.
Qed.

Lemma of_Z_spec (z : Z) :
  - 2 ^ 63 < z < 2 ^ 63 -> Prim2SF (Binary64.of_Z z) = B z 0.
Proof.
intros Hz. destruct z as [| p | p].
- reflexivity.
- unfold Binary64.of_Z. rewrite of_uint63_spec, Uint63.of_Z_spec.
  rewrite Z.mod_small by (change Uint63.wB with (2 ^ 63); lia).
  reflexivity.
- unfold Binary64.of_Z. rewrite opp_spec, of_uint63_spec, Uint63.of_Z_spec.
  rewrite Z.mod_small by (change Uint63.wB with (2 ^ 63); lia).
  change (binary_normalize prec emax (Zpos p) 0 false) with (B (Zpos p) 0).
  rewrite <- B_opp by lia. reflexivity.
Qed.


(** ** [Math.round] *)

Lemma rho_mono (v v' : Z) : v <= v' -> rho v <= rho v'.
Proof.
intros Hv. unfold rho. apply Z.div_le_mono; [| lia].
apply pow2_pos. lia.
Qed.

Lemma half_up (k : Z) : (2 * k + 1) / 2 = k.
Proof. symmetry. apply (Z.div_unique _ 2 k 1); lia. Qed.

Lemma rho_integer (n e : Z) : 0 <= e -> rho (n * 2 ^ (e + 1074)) = n * 2 ^ e.
Proof.
intros He. unfold rho.
rewrite (pow2_split e 1074) by lia.
change 1075 with (1 + 1074). rewrite (pow2_split 1 1074) by lia.
change (2 ^ 1) with 2.
pose proof (pow2_pos 1074 ltac:(lia)) as HP.
set (P := 2 ^ 1074) in *. clearbody P.
replace (2 * (n * (2 ^ e * P)) + P) with ((2 * (n * 2 ^ e) + 1) * P) by ring.
rewrite Z.div_mul_cancel_r by lia. apply half_up.
Qed.

Lemma rho_fraction (n e : Z) :
  -1074 <= e < 0 ->
  rho (n * 2 ^ (e + 1074)) = (2 * n + 2 ^ (- e)) / (2 * 2 ^ (- e)).
Proof.
intros He. unfold rho.
replace (2 ^ 1074) with (2 ^ (- e) * 2 ^ (e + 1074))
  by (rewrite <- pow2_split by lia; f_equal; lia).
replace (2 ^ 1075) with (2 * 2 ^ (- e) * 2 ^ (e + 1074)).
2:{ rewrite <- Z.mul_assoc, <- (pow2_split (- e)) by lia.
    replace (- e + (e + 1074)) with 1074 by lia.
    change 1075 with (1 + 1074). now rewrite (pow2_split 1 1074) by lia. }
pose proof (pow2_pos (e + 1074) ltac:(lia)) as HP.
pose proof (pow2_pos (- e) ltac:(lia)) as HD.
set (P := 2 ^ (e + 1074)) in *. set (D := 2 ^ (- e)) in *. clearbody P D.
replace (2 * (n * P) + D * P) with ((2 * n + D) * P) by ring.
apply Z.div_mul_cancel_r; lia.
Qed.

Lemma Math_round_fraction_bound (s : bool) (m : positive) (e : Z) :
  Zpos m < 2 ^ 53 -> e < 0 ->
  - 2 ^ 63 < (2 * signed s m + 2 ^ (- e)) / (2 * 2 ^ (- e)) < 2 ^ 63.
Proof.
intros Hm He.
pose proof (pow2_pos (- e) ltac:(lia)) as HD.
set (D := 2 ^ (- e)) in *. clearbody D.
change (2 ^ 53) with 9007199254740992 in Hm.
change (2 ^ 63) with 9223372036854775808.
assert (Hn : - 9007199254740992 < signed s m < 9007199254740992).
{ destruct s; cbn [signed]; [change (Zneg m) with (- Zpos m) |]; lia. }
split.
- apply Z.lt_le_trans with (- 9007199254740992); [lia |].
  apply Z.div_le_lower_bound; nia.
- apply Z.div_lt_upper_bound; nia.
Qed.

Lemma Math_round_fin (x : float) :
  fin (Prim2SF x) = true ->
  same (Prim2SF (Binary64.Math_round x)) (B (rho (ev (Prim2SF x))) 0).
Proof.
intros Hf. pose proof (Prim2SF_valid x) as Hv.
unfold Binary64.Math_round.
destruct (Prim2SF x) as [s | s | | s m e] eqn:HX; try discriminate.
- rewrite HX. change (rho (ev (S754_zero s))) with 0.
  destruct s; split; reflexivity.
- pose proof (valid_finite s m e Hv) as [_ [Hlo Hhi]].
  pose proof (valid_mantissa s m e Hv) as Hm.
  cbn [ev]. destruct (Z.leb_spec 0 e) as [He | He].
  + rewrite HX, rho_integer by exact He.
    rewrite <- (B_finite s m e Hv).
    rewrite <- (B_scale (signed s m) e e) by exact He.
    rewrite Z.sub_diag. apply same_refl, B_nonnan.
  + rewrite rho_fraction by lia. cbv zeta.
    replace (if s then Zneg m else Zpos m) with (signed s m) by reflexivity.
    set (r := (2 * signed s m + 2 ^ (- e)) / (2 * 2 ^ (- e))).
    pose proof (Math_round_fraction_bound s m e Hm He) as Hr. fold r in Hr.
    destruct (Z.eqb_spec r 0) as [-> | Hr0].
    * destruct s; split; reflexivity.
    * rewrite of_Z_spec by exact Hr. apply same_refl, B_nonnan.
Qed.

Lemma Math_round_not_fin (x : float) :
  fin (Prim2SF x) = false -> Binary64.Math_round x = x.
Proof.
unfold Binary64.Math_round.
now destruct (Prim2SF x) as [s | s | | s m e].
Qed.

Lemma SF_Math_round_mono (x y : float) :
  SFleb (Prim2SF x) (Prim2SF y) = true ->
  SFleb (Prim2SF (Binary64.Math_round x)) (Prim2SF (Binary64.Math_round y))
  = true.
Proof.
intros Hle.
pose proof (Prim2SF_valid x) as HvX. pose proof (Prim2SF_valid y) as HvY.
destruct (fin (Prim2SF x)) eqn:HfX.
- pose proof (Math_round_fin x HfX) as [HX HX'].
  destruct (fin (Prim2SF y)) eqn:HfY.
  + pose proof (Math_round_fin y HfY) as [HY HY'].
    eapply SFleb_trans; [exact HX |].
    eapply SFleb_trans; [| exact HY'].
    apply B_mono, rho_mono. now apply SFleb_ev_le.
  + rewrite (Math_round_not_fin y HfY).
    rewrite (not_fin_above _ _ Hle HfX HfY).
    eapply SFleb_top; exact HX.
- rewrite (Math_round_not_fin x HfX).
  destruct (not_fin_cases _ _ Hle HfX) as [HXinf | [HXinf HYinf]].
  + rewrite HXinf. destruct (fin (Prim2SF y)) eqn:HfY.
    * pose proof (Math_round_fin y HfY) as [HY HY'].
      eapply SFleb_bot; exact HY'.
    * rewrite (Math_round_not_fin y HfY).
      rewrite HXinf in Hle. exact Hle.
  + rewrite (Math_round_not_fin y) by (now rewrite HYinf).
    exact Hle.
Qed.


Lemma Math_round_bound_small (s : bool) (m : positive) (e : Z) :
  Zpos m < 2 ^ 53 -> e < 0 ->
  - 2 ^ 53 < (2 * signed s m + 2 ^ (- e)) / (2 * 2 ^ (- e)) < 2 ^ 53.
Proof.
intros Hm He.
assert (HD : 2 ^ 1 <= 2 ^ (- e)) by (apply pow2_le; lia).
change (2 ^ 1) with 2 in HD.
set (D := 2 ^ (- e)) in *. clearbody D.
change (2 ^ 53) with 9007199254740992 in *.
assert (Hn : - 9007199254740992 < signed s m < 9007199254740992).
{ destruct s; cbn [signed]; [change (Zneg m) with (- Zpos m) |]; lia. }
split.
- apply Z.lt_le_trans with (- 9007199254740991); [lia |].
  apply Z.div_le_lower_bound; nia.
- apply Z.div_lt_upper_bound; nia.
Qed.

(** What [Math.round] returns: its argument, a zero, or a non-zero integer
    below [2^53] in magnitude. *)
Lemma Math_round_cases (x : float) :
  Binary64.Math_round x = x
  \/ Binary64.Math_round x = 0%float
  \/ Binary64.Math_round x = (-0)%float
  \/ exists r : Z,
       r <> 0 /\ - 2 ^ 53 < r < 2 ^ 53
       /\ Binary64.Math_round x = Binary64.of_Z r.
Proof.
pose proof (Prim2SF_valid x) as Hv.
unfold Binary64.Math_round.
destruct (Prim2SF x) as [s | s | | s m e] eqn:HX; auto.
destruct (Z.leb_spec 0 e) as [He | He]; auto.
pose proof (valid_mantissa s m e Hv) as Hm.
cbv zeta.
replace (if s then Zneg m else Zpos m) with (signed s m) by reflexivity.
pose proof (Math_round_bound_small s m e Hm He) as Hr.
set (r := (2 * signed s m + 2 ^ (- e)) / (2 * 2 ^ (- e))) in *.
destruct (Z.eqb_spec r 0) as [Hr0 | Hr0].
- destruct s; auto.
- right. right. right. exists r. auto.
Qed.

Lemma Math_round_of_Z (r : Z) :
  r <> 0 -> - 2 ^ 53 < r < 2 ^ 53 ->
  Binary64.Math_round (Binary64.of_Z r) = Binary64.of_Z r.
Proof.
intros Hr0 Hr. unfold Binary64.Math_round at 1.
rewrite of_Z_spec by lia.
destruct (B_small r Hr0 Hr) as (p & E & -> & HE & Hp).
destruct (Z.leb_spec 0 E) as [| HE0]; [reflexivity |].
cbv zeta.
replace (if r <? 0 then Zneg p else Zpos p) with (signed (r <? 0) p)
  by reflexivity.
rewrite Hp.
pose proof (pow2_pos (- E) ltac:(lia)) as HD.
set (D := 2 ^ (- E)) in *. clearbody D.
replace (2 * (r * D) + D) with ((2 * r + 1) * D) by ring.
rewrite Z.div_mul_cancel_r, half_up by lia.
now replace (r =? 0) with false by (symmetry; apply Z.eqb_neq; lia).
Qed.

Lemma Math_round_idempotent (x : float) :
  Binary64.Math_round (Binary64.Math_round x) = Binary64.Math_round x.
Proof.
destruct (Math_round_cases x) as [H | [H | [H | (r & Hr0 & Hr & H)]]].
- now rewrite !H.
- rewrite H. reflexivity.
- rewrite H. reflexivity.
- rewrite H. now apply Math_round_of_Z.
Qed.


(** A value below 14.5 is rounded to a value below 15. *)
Lemma Math_round_below_15 (t : float) :
  PrimFloat.ltb t (Binary64.lit 14.5) = true ->
  PrimFloat.ltb (Binary64.Math_round t) (Binary64.lit 15) = true.
Proof.
rewrite !ltb_spec. intros Hlt.
pose proof (Prim2SF_valid t) as Hv.
destruct (fin (Prim2SF t)) eqn:Hf.
- pose proof (Math_round_fin t Hf) as [Hle _].
  eapply SFleb_ltb_trans; [exact Hle |].
  eapply SFleb_ltb_trans with (y := B 14 0);
    [apply B_mono | vm_compute; reflexivity].
  pose proof (SFltb_ev_lt _ _ Hv (Prim2SF_valid (Binary64.lit 14.5)) Hf
                eq_refl Hlt) as Hev.
  assert (H145 : ev (Prim2SF (Binary64.lit 14.5)) = 29 * 2 ^ 1073)
    by (vm_compute; reflexivity).
  rewrite H145 in Hev.
  assert (Hrho : rho (ev (Prim2SF t)) < 15).
  { unfold rho. apply Z.div_lt_upper_bound; [apply pow2_pos; lia |].
    change 1075 with (2 + 1073). change 1074 with (1 + 1073).
    rewrite !(pow2_split _ 1073) by lia.
    change (2 ^ 2) with 4. change (2 ^ 1) with 2.
    pose proof (pow2_pos 1073 ltac:(lia)) as HP.
    set (P := 2 ^ 1073) in *. clearbody P. lia. }
  lia.
- rewrite (Math_round_not_fin t Hf).
  destruct (Prim2SF t) as [s | [] | | s m e]; try discriminate.
  reflexivity.
Qed.

(** ** The comparisons and operations of [float] *)

Local Open Scope float_scope.

Lemma is_finite_fin (x : float) :
  is_finite x = true -> fin (Prim2SF x) = true.
Proof.
unfold is_finite, is_nan, is_infinity.
rewrite !FloatAxioms.eqb_spec, abs_spec.
change (Prim2SF infinity) with (S754_infinity false).
destruct (Prim2SF x) as [s | [] | | s m e]; cbn; congruence.
Qed.

Lemma float_leb_trans (a b c : float) :
  (a <=? b) = true -> (b <=? c) = true -> (a <=? c) = true.
Proof. rewrite !leb_spec. apply SFleb_trans. Qed.

Lemma float_ltb_leb (a b : float) : (a <? b) = true -> (a <=? b) = true.
Proof.
rewrite ltb_spec, leb_spec. unfold SFltb, SFleb.
now destruct (SFcompare (Prim2SF a) (Prim2SF b)) as [[] |].
Qed.

Lemma float_leb_refl_l (a b : float) : (a <=? b) = true -> (a <=? a) = true.
Proof. rewrite !leb_spec. apply SFleb_refl_l. Qed.

Lemma float_leb_refl_r (a b : float) : (a <=? b) = true -> (b <=? b) = true.
Proof. rewrite !leb_spec. apply SFleb_refl_r. Qed.

Lemma float_finite_refl (a : float) :
  fin (Prim2SF a) = true -> (a <=? a) = true.
Proof.
intros Hf. rewrite leb_spec. apply fin_SFleb_refl; [apply Prim2SF_valid | easy].
Qed.

Lemma float_finite_bounds (a : float) :
  fin (Prim2SF a) = true -> (- MAX <=? a) = true /\ (a <=? MAX) = true.
Proof.
intros Hf. rewrite !leb_spec.
apply (fin_below_MAX_VALUE (Prim2SF a) (Prim2SF_valid a) Hf).
Qed.

Lemma float_between_finite (l x u : float) :
  (l <=? x) = true -> (x <=? u) = true ->
  fin (Prim2SF l) = true -> fin (Prim2SF u) = true ->
  fin (Prim2SF x) = true.
Proof. rewrite !leb_spec. apply fin_between. Qed.

Lemma float_add_mono_l (a b c : float) :
  fin (Prim2SF c) = true -> (a <=? b) = true -> (a + c <=? b + c) = true.
Proof.
intros Hc. rewrite !leb_spec, !add_spec.
apply SFadd_mono_l; try apply Prim2SF_valid; exact Hc.
Qed.

Lemma float_add_mono_r (x c d : float) :
  fin (Prim2SF c) = true -> fin (Prim2SF d) = true ->
  (x <=? x) = true -> (c <=? d) = true -> (x + c <=? x + d) = true.
Proof.
intros Hc Hd. rewrite !leb_spec, !add_spec.
apply SFadd_mono_r; try apply Prim2SF_valid; assumption.
Qed.

Lemma float_sub_mono_l (a b c : float) :
  fin (Prim2SF c) = true -> (a <=? b) = true -> (a - c <=? b - c) = true.
Proof.
intros Hc. rewrite !leb_spec, !sub_spec.
apply SFsub_mono_l; try apply Prim2SF_valid; exact Hc.
Qed.

Lemma float_sub_anti_r (x c d : float) :
  fin (Prim2SF c) = true -> fin (Prim2SF d) = true ->
  (x <=? x) = true -> (c <=? d) = true -> (x - d <=? x - c) = true.
Proof.
intros Hc Hd. rewrite !leb_spec, !sub_spec.
apply SFsub_anti_r; try apply Prim2SF_valid; assumption.
Qed.

Lemma float_sub_le_self (x c : float) :
  (x <=? MAX) = true -> (0 <=? c) = true -> (x - c <=? x) = true.
Proof.
rewrite !leb_spec, !sub_spec.
apply SFsub_le_self; apply Prim2SF_valid.
Qed.

Lemma float_mul_mono (a b k : float) :
  pos_normal (Prim2SF k) = true ->
  (a <=? b) = true -> (a * k <=? b * k) = true.
Proof.
intros Hk. rewrite !leb_spec, !mul_spec.
apply SFmul_mono_const; try apply Prim2SF_valid; exact Hk.
Qed.

Lemma float_Math_round_mono (a b : float) :
  (a <=? b) = true ->
  (Binary64.Math_round a <=? Binary64.Math_round b) = true.
Proof. rewrite !leb_spec. apply SF_Math_round_mono. Qed.

(** ** An adjustment [(x - c) * k] of part_000 *)

Lemma adjustment_mono (x y c k : float) :
  fin (Prim2SF c) = true -> pos_normal (Prim2SF k) = true ->
  (x <=? y) = true -> (adjustment x c k <=? adjustment y c k) = true.
Proof.
intros Hc Hk Hle. unfold adjustment.
now apply float_mul_mono, float_sub_mono_l.
Qed.

Lemma adjustment_finite (x c k : float) :
  fin (Prim2SF c) = true -> pos_normal (Prim2SF k) = true ->
  fin (Prim2SF (adjustment (- MAX) c k)) = true ->
  fin (Prim2SF (adjustment MAX c k)) = true ->
  fin (Prim2SF x) = true ->
  fin (Prim2SF (adjustment x c k)) = true.
Proof.
intros Hc Hk Hlo Hhi Hx.
destruct (float_finite_bounds x Hx) as [Hl Hu].
eapply float_between_finite; [| | exact Hlo | exact Hhi];
  now apply adjustment_mono.
Qed.

Lemma adjustment_nonneg (x c k : float) :
  fin (Prim2SF c) = true -> pos_normal (Prim2SF k) = true ->
  (0 <=? adjustment c c k) = true ->
  (c <? x) = true -> (0 <=? adjustment x c k) = true.
Proof.
intros Hc Hk H0 Hlt.
eapply float_leb_trans; [exact H0 |].
now apply adjustment_mono, float_ltb_leb.
Qed.


Lemma float_leb_ltb_trans (a b c : float) :
  (a <=? b) = true -> (b <? c) = true -> (a <? c) = true.
Proof. rewrite leb_spec, !ltb_spec. apply SFleb_ltb_trans. Qed.

Lemma float_ltb_leb_trans (a b c : float) :
  (a <? b) = true -> (b <=? c) = true -> (a <? c) = true.
Proof. rewrite leb_spec, !ltb_spec. apply SFltb_leb_trans. Qed.

End RoundingFacts.

(* ================================================================== *)
(** ** The adjustments of part_000 in binary64 *)
(* ================================================================== *)

Section Part000Binary64.

Import Rounding RoundingFacts.
Local Open Scope js_scope.

Implicit Types t w h x y : float.

Lemma wind_chill_float w t :
  wind_chill w t
  = if lit 20 <? w then PrimFloat.sub t (adjustment w (lit 20) (lit 0.1))
    else t.
Proof. reflexivity. Qed.

Lemma humid_float t h x :
  humid t h x
  = if lit 70 <? h
    then if lit 20 <? t
         then PrimFloat.add x (adjustment h (lit 70) (lit 0.1))
         else PrimFloat.sub x (adjustment h (lit 70) (lit 0.05))
    else x.
Proof. reflexivity. Qed.

Lemma time_of_day_float (hour : Z) x :
  time_of_day hour x
  = if (hour <? 6)%Z || (18 <? hour)%Z then PrimFloat.sub x (lit 2) else x.
Proof. reflexivity. Qed.

Lemma wind_term_finite w :
  fin (Prim2SF w) = true ->
  fin (Prim2SF (adjustment w (lit 20) (lit 0.1))) = true.
Proof. apply adjustment_finite; vm_compute; reflexivity. Qed.

Lemma humid_term_finite_warm h :
  fin (Prim2SF h) = true ->
  fin (Prim2SF (adjustment h (lit 70) (lit 0.1))) = true.
Proof. apply adjustment_finite; vm_compute; reflexivity. Qed.

Lemma humid_term_finite_cool h :
  fin (Prim2SF h) = true ->
  fin (Prim2SF (adjustment h (lit 70) (lit 0.05))) = true.
Proof. apply adjustment_finite; vm_compute; reflexivity. Qed.

Lemma float_time_of_day_mono (hour : Z) x y :
  x <= y -> time_of_day hour x <= time_of_day hour y.
Proof.
unfold leq. cbn [leb Binary64.number]. intros Hle.
rewrite !time_of_day_float.
destruct ((hour <? 6)%Z || (18 <? hour)%Z); [| exact Hle].
apply float_sub_mono_l; [vm_compute; reflexivity | exact Hle].
Qed.

Lemma float_humid_mono t h x y :
  fin (Prim2SF h) = true -> x <= y -> humid t h x <= humid t h y.
Proof.
unfold leq. cbn [leb Binary64.number]. intros Hh Hle.
rewrite !humid_float.
destruct (lit 70 <? h); [| exact Hle].
destruct (lit 20 <? t).
- apply float_add_mono_l; [now apply humid_term_finite_warm | exact Hle].
- apply float_sub_mono_l; [now apply humid_term_finite_cool | exact Hle].
Qed.

Lemma float_perceived_mono (hour : Z) x y :
  x <= y ->
  Math_round (time_of_day hour x) <= Math_round (time_of_day hour y).
Proof.
intros Hle. apply (float_time_of_day_mono hour) in Hle.
unfold leq in *. cbn [leb Math_round Binary64.number] in *.
now apply float_Math_round_mono.
Qed.

Lemma float_wind_chill_antitone t w1 w2 :
  fin (Prim2SF t) = true -> fin (Prim2SF w1) = true ->
  fin (Prim2SF w2) = true ->
  lit 20 < w1 -> w1 < w2 -> wind_chill w2 t <= wind_chill w1 t.
Proof.
unfold less, leq. cbn [ltb leb Binary64.number]. intros Ht Hw1 Hw2 H20 Hlt.
rewrite !wind_chill_float. cbn [ltb Binary64.number].
rewrite H20.
rewrite (float_ltb_leb_trans _ _ _ H20 (float_ltb_leb _ _ Hlt)).
apply float_sub_anti_r;
  [now apply wind_term_finite | now apply wind_term_finite
  | now apply float_finite_refl |].
apply adjustment_mono; [vm_compute; reflexivity | vm_compute; reflexivity |].
now apply float_ltb_leb.
Qed.

Lemma float_wind_chill_not_nan t w :
  fin (Prim2SF t) = true -> fin (Prim2SF w) = true ->
  wind_chill w t <= wind_chill w t.
Proof.
unfold leq. cbn [leb Binary64.number]. intros Ht Hw.
rewrite wind_chill_float. destruct (lit 20 <? w).
- apply float_sub_mono_l; [now apply wind_term_finite |].
  now apply float_finite_refl.
- now apply float_finite_refl.
Qed.

Lemma float_humid_monotone_warm t h1 h2 x :
  fin (Prim2SF h1) = true -> fin (Prim2SF h2) = true -> x <= x ->
  lit 70 < h1 -> h1 < h2 -> lit 20 < t ->
  humid t h1 x <= humid t h2 x.
Proof.
unfold less, leq. cbn [ltb leb Binary64.number].
intros Hh1 Hh2 Hx H70 Hlt Ht.
rewrite !humid_float. cbn [ltb Binary64.number].
rewrite H70, Ht.
rewrite (float_ltb_leb_trans _ _ _ H70 (float_ltb_leb _ _ Hlt)).
apply float_add_mono_r;
  [now apply humid_term_finite_warm | now apply humid_term_finite_warm
  | exact Hx |].
apply adjustment_mono; [vm_compute; reflexivity | vm_compute; reflexivity |].
now apply float_ltb_leb.
Qed.

Lemma float_humid_antitone_cool t h1 h2 x :
  fin (Prim2SF h1) = true -> fin (Prim2SF h2) = true -> x <= x ->
  lit 70 < h1 -> h1 < h2 -> t <= lit 20 ->
  humid t h2 x <= humid t h1 x.
Proof.
unfold less, leq. cbn [ltb leb Binary64.number].
intros Hh1 Hh2 Hx H70 Hlt Ht.
rewrite !humid_float. cbn [ltb Binary64.number].
rewrite H70, (Binary64.float_leb_not_gt _ _ Ht).
rewrite (float_ltb_leb_trans _ _ _ H70 (float_ltb_leb _ _ Hlt)).
apply float_sub_anti_r;
  [now apply humid_term_finite_cool | now apply humid_term_finite_cool
  | exact Hx |].
apply adjustment_mono; [vm_compute; reflexivity | vm_compute; reflexivity |].
now apply float_ltb_leb.
Qed.

(** Without the warm and humid case, no adjustment raises the value. *)
Lemma float_wind_chill_below w t :
  t <= MAX -> wind_chill w t <= t.
Proof.
unfold leq. cbn [leb Binary64.number]. intros Ht.
rewrite wind_chill_float. destruct (lit 20 <? w) eqn:Hw.
- apply float_sub_le_self; [exact Ht |].
  apply adjustment_nonneg; try (vm_compute; reflexivity). exact Hw.
- eapply float_leb_refl_l; exact Ht.
Qed.

Lemma float_humid_below t h x :
  x <= MAX -> (lit 70 <? h) && (lit 20 <? t) = false -> humid t h x <= x.
Proof.
unfold leq. cbn [leb Binary64.number]. intros Hx Hmild.
rewrite humid_float. destruct (lit 70 <? h) eqn:Hh.
- destruct (lit 20 <? t); [discriminate |].
  apply float_sub_le_self; [exact Hx |].
  apply adjustment_nonneg; try (vm_compute; reflexivity). exact Hh.
- eapply float_leb_refl_l; exact Hx.
Qed.

Lemma float_time_of_day_below (hour : Z) x :
  x <= MAX -> time_of_day hour x <= x.
Proof.
unfold leq. cbn [leb Binary64.number]. intros Hx.
rewrite time_of_day_float.
destruct ((hour <? 6)%Z || (18 <? hour)%Z).
- apply float_sub_le_self; [exact Hx | vm_compute; reflexivity].
- eapply float_leb_refl_l; exact Hx.
Qed.

Lemma float_perceived_below t w h (hour : Z) :
  t <= MAX -> (lit 70 <? h) && (lit 20 <? t) = false ->
  spec_perceivedTemperature t w h hour <= Math_round t.
Proof.
intros Ht Hmild.
pose proof (float_wind_chill_below w t Ht) as H1.
assert (H1' : wind_chill w t <= MAX)
  by (eapply float_leb_trans; [exact H1 | exact Ht]).
pose proof (float_humid_below t h _ H1' Hmild) as H2.
assert (H2' : humid t h (wind_chill w t) <= MAX)
  by (eapply float_leb_trans; [exact H2 | exact H1']).
pose proof (float_time_of_day_below hour _ H2') as H3.
unfold spec_perceivedTemperature, leq. cbn [leb Math_round Binary64.number].
apply float_Math_round_mono.
eapply float_leb_trans; [exact H3 |].
eapply float_leb_trans; [exact H2 | exact H1].
Qed.

End Part000Binary64.

(* ================================================================== *)
(** ** The rest of the code: order and bounds of part_000, in binary64 *)
(* ================================================================== *)

(** C5, amended. In binary64, for a finite temperature, finite wind speeds
    and finite humidities, holding all other input fields fixed:
    for wind speeds 20 < w1 < w2 the perceived temperature at w2 is less
    than or equal to the one at w1; for humidities 70 < h1 < h2 the
    perceived temperature at h2 is greater than or equal to the one at h1
    when temperature > 20, and less than or equal to the one at h1 when
    temperature <= 20. *)
Theorem perceived_temperature_weakly_monotone
    (t p w1 w2 h1 h2 : float) (currentHour : Z) :
  is_finite t = true -> is_finite w1 = true -> is_finite h1 = true ->
  (is_finite w2 = true -> lit 20 < w1 -> w1 < w2 ->
   exists a b : float,
     feelsLike t p w1 h1 currentHour = Some a
     /\ feelsLike t p w2 h1 currentHour = Some b
     /\ b <= a)
  /\ (is_finite h2 = true -> lit 70 < h1 -> h1 < h2 -> lit 20 < t ->
      exists a b : float,
        feelsLike t p w1 h1 currentHour = Some a
        /\ feelsLike t p w1 h2 currentHour = Some b
        /\ a <= b)
  /\ (is_finite h2 = true -> lit 70 < h1 -> h1 < h2 -> t <= lit 20 ->
      exists a b : float,
        feelsLike t p w1 h1 currentHour = Some a
        /\ feelsLike t p w1 h2 currentHour = Some b
        /\ b <= a).
Proof.
intros Ht Hw1 Hh1.
apply RoundingFacts.is_finite_fin in Ht, Hw1, Hh1.
repeat split; intros Hfinite; apply RoundingFacts.is_finite_fin in Hfinite; intros;
  do 2 eexists; (split; [apply feelsLike_spec |]);
  (split; [apply feelsLike_spec |]);
  unfold spec_perceivedTemperature; apply float_perceived_mono.
- apply float_humid_mono; [exact Hh1 |].
  now apply float_wind_chill_antitone.
- apply float_humid_monotone_warm; try assumption.
  now apply float_wind_chill_not_nan.
- apply float_humid_antitone_cool; try assumption.
  now apply float_wind_chill_not_nan.
Qed.

(** C5, amended, at wind 21 and 30, and at humidity 71 and 90 on either
    side of 20 degrees. *)
Lemma perceived_temperature_weakly_monotone_witness :
  (is_finite (lit 10 : float) = true /\ is_finite (lit 21 : float) = true
   /\ is_finite (lit 50 : float) = true /\ is_finite (lit 30 : float) = true
   /\ (lit 20 : float) < lit 21 /\ (lit 21 : float) < lit 30
   /\ exists a b : float,
        feelsLike (lit 10) (lit 0) (lit 21) (lit 50) 12 = Some a
        /\ feelsLike (lit 10) (lit 0) (lit 30) (lit 50) 12 = Some b
        /\ b <= a)
  /\ (is_finite (lit 25 : float) = true /\ is_finite (lit 10 : float) = true
      /\ is_finite (lit 71 : float) = true
      /\ is_finite (lit 90 : float) = true
      /\ (lit 70 : float) < lit 71 /\ (lit 71 : float) < lit 90
      /\ (lit 20 : float) < lit 25
      /\ exists a b : float,
           feelsLike (lit 25) (lit 0) (lit 10) (lit 71) 12 = Some a
           /\ feelsLike (lit 25) (lit 0) (lit 10) (lit 90) 12 = Some b
           /\ a <= b)
  /\ (is_finite (lit 10 : float) = true /\ is_finite (lit 71 : float) = true
      /\ is_finite (lit 90 : float) = true
      /\ (lit 70 : float) < lit 71 /\ (lit 71 : float) < lit 90
      /\ (lit 10 : float) <= lit 20
      /\ exists a b : float,
           feelsLike (lit 10) (lit 0) (lit 10) (lit 71) 12 = Some a
           /\ feelsLike (lit 10) (lit 0) (lit 10) (lit 90) 12 = Some b
           /\ b <= a).
Proof.
split; [| split]; repeat (split; [vm_compute; reflexivity |]).
- refine (proj1 (perceived_temperature_weakly_monotone
                   (lit 10) (lit 0) (lit 21) (lit 30) (lit 50) (lit 50) 12
                   _ _ _)
                _ _ _);
    vm_compute; reflexivity.
- refine (proj1 (proj2 (perceived_temperature_weakly_monotone
                   (lit 25) (lit 0) (lit 10) (lit 10) (lit 71) (lit 90) 12
                   _ _ _))
                _ _ _ _);
    vm_compute; reflexivity.
- refine (proj2 (proj2 (perceived_temperature_weakly_monotone
                   (lit 10) (lit 0) (lit 10) (lit 10) (lit 71) (lit 90) 12
                   _ _ _))
                _ _ _ _);
    vm_compute; reflexivity.
Defined.

(** X10. In binary64, for a finite temperature and whatever the wind speed
    and the humidity (infinities and NaN included), the perceived
    temperature of part_000 is never above the displayed temperature
    Math.round(temperature), unless it is both humid (humidity > 70) and
    warm (temperature > 20). *)
Theorem perceived_temperature_bounded_above
    (t p w h : float) (currentHour : Z) :
  is_finite t = true ->
  (lit 70 <? h) && (lit 20 <? t) = false ->
  exists a : float,
    feelsLike t p w h currentHour = Some a /\ a <= Math_round t.
Proof.
intros Ht Hmild. apply RoundingFacts.is_finite_fin in Ht.
eexists. split; [apply feelsLike_spec |].
apply float_perceived_below; [| exact Hmild].
apply (RoundingFacts.float_finite_bounds t Ht).
Qed.

(** X11. In binary64, a raw temperature below 14.5 degrees always ends in
    a coat on part_000: whatever the precipitation, wind, humidity
    (infinities and NaN included) and hour, the record returned makes
    shouldTakeCoat answer true. *)
Theorem cold_day_means_coat (t p w h : float) (currentHour : Z) :
  t < lit 14.5 ->
  exists r : WeatherData float,
    Part000.getWeatherForecast (Part000.observed t p w h) currentHour
    = Returned r
    /\ shouldTakeCoat (Some r) = true.
Proof.
intros Hcold. unfold less in Hcold. cbn [ltb Binary64.number] in Hcold.
eexists. split; [apply part000_returns |].
unfold shouldTakeCoat.
cbn [isCold conditions_isRainy isWindy isNightTime perceivedTemp nullish].
assert (Hperceived :
          (spec_perceivedTemperature t w h currentHour <? lit 15) = true).
{ assert (Hle : (PrimFloat.leb t (lit 14.5)) = true)
    by now apply RoundingFacts.float_ltb_leb.
  assert (Hnot_warm : (lit 20 <? t) = false).
  { apply leb_not_gt. cbn [leb Binary64.number].
    eapply RoundingFacts.float_leb_trans; [exact Hle | vm_compute; reflexivity]. }
  assert (Hmax : t <= Rounding.MAX).
  { unfold leq. cbn [leb Binary64.number].
    eapply RoundingFacts.float_leb_trans; [exact Hle | vm_compute; reflexivity]. }
  pose proof (float_perceived_below t w h currentHour Hmax) as Hbelow.
  rewrite Hnot_warm, andb_false_r in Hbelow. specialize (Hbelow eq_refl).
  unfold leq in Hbelow. cbn [ltb leb Math_round Binary64.number] in *.
  eapply RoundingFacts.float_leb_ltb_trans; [exact Hbelow |].
  now apply RoundingFacts.Math_round_below_15. }
rewrite Hperceived. reflexivity.
Qed.

(** X12. In binary64, normalising again is stable from the first repetition
    on: the record obtained by re-normalising a normalised record is
    perceived the same when it is re-normalised in turn. *)
Theorem renormalizing_twice_is_stable
    (t p p1 p2 w h : float) (currentHour : Z) :
  let first :=
    Part000.getWeatherForecast (Part000.observed t p w h) currentHour in
  exists a : float,
    perceived (renormalize first p1) = Some a
    /\ perceived (renormalize (renormalize first p1) p2) = Some a.
Proof.
cbv zeta. unfold Part000.observed. rewrite part000_returns.
cbn [renormalize nullish temperature windSpeed humidity hour].
unfold Part000.observed. rewrite part000_returns.
cbn [renormalize nullish temperature windSpeed humidity hour perceived
     perceivedTemp].
unfold Part000.observed. rewrite part000_returns.
cbn [perceived perceivedTemp nullish Math_round Binary64.number].
rewrite !RoundingFacts.Math_round_idempotent.
eexists. split; reflexivity.
Qed.

Lemma perceived_temperature_bounded_above_witness :
  is_finite (lit 18 : float) = true
  /\ (lit 70 <? (lit 90 : float)) && (lit 20 <? (lit 18 : float)) = false
  /\ exists a : float,
       feelsLike (lit 18) (lit 0) (lit 35) (lit 90) 22 = Some a
       /\ a <= Math_round (lit 18 : float).
Proof.
split; [vm_compute; reflexivity | split; [vm_compute; reflexivity |]].
apply (perceived_temperature_bounded_above
         (lit 18) (lit 0) (lit 35) (lit 90) 22); vm_compute; reflexivity.
Defined.

Lemma cold_day_means_coat_witness :
  (lit 14 : float) < lit 14.5
  /\ exists r : WeatherData float,
       Part000.getWeatherForecast
         (Part000.observed (lit 14) (lit 0) (lit 5) (lit 40)) 12
       = Returned r
       /\ shouldTakeCoat (Some r) = true.
Proof.
split; [vm_compute; reflexivity |].
apply (cold_day_means_coat (lit 14) (lit 0) (lit 5) (lit 40) 12).
vm_compute; reflexivity.
Defined.

(* ================================================================== *)
(** ** The rest of the code: the component [Home] *)
(* ================================================================== *)

Section HomeFacts.

Context {num : Type} `{JSNumber num}.

Variable LocationData : Type.
Variable place_name : option (LocationData -> string).
Variable explained : bool.

Let State : Type := Home.State num LocationData.
Let Event : Type := Home.Event num LocationData.
Let render : State -> list Home.Element :=
  Home.render place_name explained.

Lemma run_snoc (events : list Event) (e : Event) (s : State) :
  Home.run (events ++ [e]) s = Home.handle (Home.run events s) e.
Proof. unfold Home.run. now rewrite fold_left_app. Qed.

Lemma shows_CheckAgain (s : State) :
  In Home.CheckAgain (render s) <-> Home.location s <> None.
Proof.
unfold render, Home.render. rewrite !in_app_iff.
destruct (Home.error s) as [message |];
  [destruct (message =? EmptyString)%string |];
  destruct (Home.location s), (Home.loading s), (Home.weather s),
    place_name, explained;
  cbn; intuition congruence.
Qed.

Lemma shows_GetMyLocation (s : State) :
  In Home.GetMyLocation (render s)
  <-> Home.location s = None /\ Home.loading s = false.
Proof.
unfold render, Home.render. rewrite !in_app_iff.
destruct (Home.error s) as [message |];
  [destruct (message =? EmptyString)%string |];
  destruct (Home.location s), (Home.loading s), (Home.weather s),
    place_name, explained;
  cbn; intuition congruence.
Qed.

Lemma shows_ErrorText (s : State) (message : string) :
  In (Home.ErrorText message) (render s)
  <-> Home.error s = Some message /\ message <> EmptyString.
Proof.
unfold render, Home.render. rewrite !in_app_iff.
destruct (Home.error s) as [shown |];
  [destruct (String.eqb_spec shown EmptyString) |];
  destruct (Home.location s), (Home.loading s), (Home.weather s),
    place_name, explained;
  cbn; intuition congruence.
Qed.

Lemma shows_Verdict (s : State) (text : string) :
  In (Home.Verdict text) (render s)
  <-> Home.weather s <> None
      /\ text = if shouldTakeCoat (Home.weather s)
                then "Yes, take your coat!"
                else "No, you don't need a coat!".
Proof.
unfold render, Home.render. rewrite !in_app_iff.
destruct (Home.error s) as [message |];
  [destruct (message =? EmptyString)%string |];
  destruct (Home.location s), (Home.loading s), (Home.weather s),
    place_name, explained;
  cbn; intuition congruence.
Qed.

(** X13. Whatever the order in which clicks, positions, failures and
    forecasts arrive, the forecast held is the one that settled
    successfully last and the location held is the one positioned last;
    no failure and no click ever clears or changes either. *)
Theorem last_settled_forecast_wins (events : list Event) (s : State) :
  Home.weather (Home.run events s) = last_forecast events (Home.weather s)
  /\ Home.location (Home.run events s) = last_place events (Home.location s).
Proof.
revert s. induction events as [| e events IH]; intros s; [now split |].
change (Home.run (e :: events) s) with (Home.run events (Home.handle s e)).
destruct (IH (Home.handle s e)) as [-> ->].
destruct e as [supported | place | | [data | message]];
  try destruct supported; split; reflexivity.
Qed.

Lemma location_persists (events : list Event) (s : State) :
  Home.location s <> None -> Home.location (Home.run events s) <> None.
Proof.
revert s. induction events as [| e events IH]; intros s Hset; [exact Hset |].
change (Home.run (e :: events) s) with (Home.run events (Home.handle s e)).
apply IH. destruct e as [[] | place | | [data | failure]];
  cbn; congruence.
Qed.

Lemma forecast_persists (events : list Event) (s : State) :
  Home.weather s <> None -> Home.weather (Home.run events s) <> None.
Proof.
revert s. induction events as [| e events IH]; intros s Hset; [exact Hset |].
change (Home.run (e :: events) s) with (Home.run events (Home.handle s e)).
apply IH. destruct e as [[] | place | | [data | failure]];
  cbn; congruence.
Qed.

(** X14. Once the button "Check Again" is displayed it stays displayed and
    "Get My Location" never comes back, whatever happens afterwards;
    likewise a verdict, once displayed, is never taken off the page. *)
Theorem location_and_verdict_stay (events : list Event) (s : State) :
  (In Home.CheckAgain (render s) ->
   In Home.CheckAgain (render (Home.run events s))
   /\ ~ In Home.GetMyLocation (render (Home.run events s)))
  /\ ((exists text, In (Home.Verdict text) (render s)) ->
      exists text, In (Home.Verdict text) (render (Home.run events s))).
Proof.
split.
- rewrite !shows_CheckAgain, shows_GetMyLocation.
  intros Hset. pose proof (location_persists events s Hset) as Hstill.
  split; [exact Hstill |]. intros [Hnone _]. contradiction.
- intros [text Htext]. apply shows_Verdict in Htext as [Hset _].
  eexists. apply shows_Verdict.
  split; [now apply forecast_persists | reflexivity].
Qed.

(** X15. A re-check that fails leaves the old verdict on the page next to
    the error: from any state that holds a forecast, a click, a position
    and a failed forecast end with "Failed to fetch weather data"
    displayed together with the verdict of the forecast held before, and
    without "Loading...". *)
Theorem failed_recheck_keeps_old_verdict
    (s : State) (data : WeatherData num) (place : LocationData)
    (message : string) :
  Home.weather s = Some data ->
  let after :=
    Home.run [Home.Click true; Home.Positioned place;
         Home.ForecastSettled (Thrown message)] s in
  In (Home.ErrorText "Failed to fetch weather data") (render after)
  /\ In (Home.Verdict (if shouldTakeCoat (Some data)
                       then "Yes, take your coat!"
                       else "No, you don't need a coat!")) (render after)
  /\ ~ In Home.LoadingText (render after).
Proof.
intros Hdata after.
assert (Hweather : Home.weather after = Some data) by exact Hdata.
assert (Herror : Home.error after = Some "Failed to fetch weather data")
  by reflexivity.
assert (Hloading : Home.loading after = false) by reflexivity.
split; [| split].
- apply shows_ErrorText. split; [exact Herror | discriminate].
- apply shows_Verdict. rewrite Hweather. split; [discriminate | reflexivity].
- unfold render, Home.render. rewrite !in_app_iff, Hloading, Herror, Hweather.
  cbn [String.eqb Ascii.eqb Bool.eqb negb andb In].
  destruct (Home.is_set (Home.location after)), place_name, explained;
    cbn; intuition discriminate.
Qed.

(** X16. Only a click takes an error message off the page: over any
    events without a click, among them forecasts that arrive successfully,
    a displayed error message is followed by a displayed error message. *)
Theorem error_stays_until_click (events : list Event) (s : State)
    (message : string) :
  forallb (fun e => negb (is_click e)) events = true ->
  In (Home.ErrorText message) (render s) ->
  exists shown, In (Home.ErrorText shown) (render (Home.run events s)).
Proof.
revert s message.
induction events as [| e events IH]; intros s message Hquiet Hshown;
  [now exists message |].
cbn [forallb] in Hquiet. apply andb_true_iff in Hquiet as [He Hquiet].
change (Home.run (e :: events) s) with (Home.run events (Home.handle s e)).
apply shows_ErrorText in Hshown as [Herror Hfilled].
destruct e as [supported | place | | [data | failure]];
  try discriminate He.
- apply (IH _ message Hquiet). apply shows_ErrorText. now split.
- apply (IH _ "Unable to retrieve your location" Hquiet).
  apply shows_ErrorText. split; [reflexivity | discriminate].
- apply (IH _ message Hquiet). apply shows_ErrorText. now split.
- apply (IH _ "Failed to fetch weather data" Hquiet).
  apply shows_ErrorText. split; [reflexivity | discriminate].
Qed.

End HomeFacts.

(* ================================================================== *)
(** ** The statements above, at concrete inputs *)
(* ================================================================== *)

Lemma page_returns_iff_answered_witness :
  exists r : WeatherData float,
    Page.getWeatherForecast (fun x y : float => PrimFloat.mul x y)
      (Page.delivered (Some 10%float) None None None) 12
    = Returned r.
Proof.
apply (proj1 (page_returns_iff_answered
                (fun x y : float => PrimFloat.mul x y)
                (Page.delivered (Some 10%float) None None None) 12)).
reflexivity.
Defined.

Lemma getLocationName_never_rejects_witness :
  Geocoding.getLocationName PrimFloat.abs sample_toFixed
    (Thrown "AbortError") 41.01%float (-29.5)%float
  = Returned "41.01°N, 41.01°W".
Proof.
refine (eq_trans
          (proj2 (getLocationName_never_rejects PrimFloat.abs sample_toFixed
                    (Thrown "AbortError") 41.01%float (-29.5)%float) I) _).
vm_compute. reflexivity.
Defined.

Lemma getLocationName_parts_witness :
  first_place sample_answer = Some sample_place
  /\ Geocoding.getLocationName PrimFloat.abs sample_toFixed sample_answer
       41.01%float 29%float
     = Returned "Kadikoy, Istanbul".
Proof.
split; [reflexivity |].
refine (eq_trans
          (proj1 (getLocationName_parts PrimFloat.abs sample_toFixed
                    sample_answer 41.01%float 29%float sample_place
                    eq_refl) _) _);
  [discriminate | reflexivity].
Defined.

Lemma getLocationName_not_empty_witness :
  Geocoding.getLocationName PrimFloat.abs sample_toFixed sample_answer
    41.01%float 29%float
  = Returned "Kadikoy, Istanbul"
  /\ "Kadikoy, Istanbul" <> EmptyString.
Proof.
split; [reflexivity |].
apply (getLocationName_not_empty PrimFloat.abs sample_toFixed sample_answer
         41.01%float 29%float).
reflexivity.
Defined.

Lemma location_and_verdict_stay_witness :
  In Home.CheckAgain (Home.render None true sample_state)
  /\ In Home.CheckAgain
       (Home.render None true
          (Home.run [Home.Click true; Home.PositionFailed] sample_state))
  /\ exists text,
       In (Home.Verdict text)
          (Home.render None true
             (Home.run [Home.Click true; Home.PositionFailed] sample_state)).
Proof.
assert (Hshown : In Home.CheckAgain (Home.render None true sample_state))
  by (cbn; auto 10).
split; [exact Hshown |].
destruct (location_and_verdict_stay (PageHome.LocationData float) None true
            [Home.Click true; Home.PositionFailed] sample_state)
  as [Hbutton Hverdict].
split; [exact (proj1 (Hbutton Hshown)) |].
apply Hverdict. eexists. cbn. right. left. reflexivity.
Defined.

Lemma failed_recheck_keeps_old_verdict_witness :
  let after :=
    Home.run [Home.Click true;
              Home.Positioned {| PageHome.lat := 41; PageHome.lon := 29 |}%float;
              Home.ForecastSettled (Thrown "Failed to fetch weather data")]
      sample_state in
  In (Home.ErrorText "Failed to fetch weather data")
     (Home.render None true after)
  /\ In (Home.Verdict "Yes, take your coat!") (Home.render None true after)
  /\ ~ In Home.LoadingText (Home.render None true after).
Proof.
cbv zeta.
refine (failed_recheck_keeps_old_verdict (PageHome.LocationData float) None
          true sample_state
          {| temperature := 12; isRainy := false; windSpeed := 8;
             humidity := 60; hour := 9; perceivedTemp := 12 |}%float
          {| PageHome.lat := 41; PageHome.lon := 29 |}%float
          "Failed to fetch weather data" _).
reflexivity.
Defined.

Lemma error_stays_until_click_witness :
  In (Home.ErrorText "Failed to fetch weather data")
     (Home.render None true sample_state)
  /\ exists shown,
       In (Home.ErrorText shown)
          (Home.render None true
             (Home.run
                [Home.ForecastSettled
                   (Returned {| temperature := 25; isRainy := false;
                                windSpeed := 8; humidity := 60; hour := 9;
                                perceivedTemp := 25 |}%float)]
                sample_state)).
Proof.
assert (Hshown : In (Home.ErrorText "Failed to fetch weather data")
                    (Home.render None true sample_state))
  by (cbn; auto).
split; [exact Hshown |].
refine (error_stays_until_click (PageHome.LocationData float) None true
          _ sample_state "Failed to fetch weather data" _ Hshown).
reflexivity.
Defined.
